(** * task-cli: the storage and repository layers

    A shallow embedding of [src/models.py], [src/storage.py] and
    [src/repository.py], and the properties of the specification that
    concern them.

    - Python integers are [Z]; [str] is [string].
    - A [Dict[int, Task]] is a [gmap Z Task]: no property below depends on
      the insertion order of the dictionary, and the repository itself
      sorts the keys before it returns tasks.
    - The backing file is modelled by what the two calls of the [json]
      module make of it ([file_content]); the text layer of that module is
      not part of the repository.
    - Exceptions are values of [exn]; every operation returns a result and
      the new state of the storage. *)

From Stdlib Require Import ZArith String Ascii List Sorting.Sorted.
From Stdlib Require Import DecimalString DecimalZ DecimalPos DecimalFacts.
From stdpp Require Import base option list gmap fin_maps sorting strings.

Set Warnings "-register-all".

Local Open Scope string_scope.
Local Open Scope list_scope.
Local Open Scope Z_scope.

(** ** Python built-ins used by the storage layer *)

Module Py.

(** [str.isspace] on the ASCII range: space, [\t \n \v \f \r] and the
    separators [\x1c] to [\x1f]. *)
Definition is_space (c : ascii) : bool :=
  let n := nat_of_ascii c in
  ((n =? 32) || ((9 <=? n) && (n <=? 13)) || ((28 <=? n) && (n <=? 31)))%nat.

Definition is_digit (c : ascii) : bool :=
  let n := nat_of_ascii c in ((48 <=? n) && (n <=? 57))%nat.

Fixpoint lstrip (s : string) : string :=
  match s with
  | String c s' => if is_space c then lstrip s' else s
  | EmptyString => EmptyString
  end.

Fixpoint rstrip (s : string) : string :=
  match s with
  | EmptyString => EmptyString
  | String c s' =>
      match rstrip s' with
      | EmptyString => if is_space c then EmptyString else String c EmptyString
      | r => String c r
      end
  end.

Definition strip (s : string) : string := rstrip (lstrip s).

(** [str(n)] for an integer: the decimal numeral, ["-"] in front of a
    negative one. *)
Definition str (n : Z) : string := NilZero.string_of_int (Z.to_int n).

(** The digits of an integer literal as [int()] reads them: one or more
    digits, single underscores allowed between two digits only. *)
Fixpoint literal_digits (after_digit : bool) (s : string) : option string :=
  match s with
  | EmptyString => if after_digit then Some EmptyString else None
  | String c s' =>
      if is_digit c then String c <$> literal_digits true s'
      else if Ascii.eqb c "_" && after_digit then literal_digits false s'
      else None
  end.

Definition unsigned_literal (s : string) : option Z :=
  d ← literal_digits false s;
  u ← NilEmpty.uint_of_string d;
  Some (Z.of_uint u).

(** [int(s)] in base 10 on ASCII input: surrounding white space is
    dropped, an optional sign, then the digits.  [None] stands for the
    [ValueError] of an invalid literal. *)
Definition int (s : string) : option Z :=
  match strip s with
  | String c r =>
      if Ascii.eqb c "-" then Z.opp <$> unsigned_literal r
      else if Ascii.eqb c "+" then unsigned_literal r
      else unsigned_literal (String c r)
  | EmptyString => None
  end.

(** [max(xs, default=d)]. *)
Definition max_default (xs : list Z) (d : Z) : Z :=
  match xs with
  | [] => d
  | x :: xs' => foldl Z.max x xs'
  end.

End Py.

(** ** [src/models.py] *)

Module models.

Inductive Priority := LOW | MEDIUM | HIGH.
Inductive Status := PENDING | DONE.

(** A naive [datetime.datetime], as [datetime.now()] returns it. *)
Record datetime := {
  year : Z; month : Z; day : Z;
  hour : Z; minute : Z; second : Z; microsecond : Z
}.

Record Task := {
  title : string;
  status : Status;
  priority : Priority;
  id : option Z;
  created_at : datetime
}.

(** [Priority.value], [Status.value] and the lookups [Priority(v)],
    [Status(v)] by value. *)
Definition Priority_value (p : Priority) : string :=
  match p with LOW => "low" | MEDIUM => "medium" | HIGH => "high" end.

Definition Status_value (s : Status) : string :=
  match s with PENDING => "pending" | DONE => "done" end.

Definition Priority_of_value (v : string) : option Priority :=
  if String.eqb v "low" then Some LOW
  else if String.eqb v "medium" then Some MEDIUM
  else if String.eqb v "high" then Some HIGH
  else None.

Definition Status_of_value (v : string) : option Status :=
  if String.eqb v "pending" then Some PENDING
  else if String.eqb v "done" then Some DONE
  else None.

(** [task.status = s] on a task object. *)
Definition set_status (s : Status) (t : Task) : Task :=
  {| title := title t; status := s; priority := priority t;
     id := id t; created_at := created_at t |}.

#[global] Instance Status_eq_dec : EqDecision Status.
Proof. solve_decision. Defined.
#[global] Instance Priority_eq_dec : EqDecision Priority.
Proof. solve_decision. Defined.
#[global] Instance datetime_eq_dec : EqDecision datetime.
Proof. solve_decision. Defined.
#[global] Instance Task_eq_dec : EqDecision Task.
Proof. solve_decision. Defined.

(** *** The fields a [datetime] can hold *)

Definition is_leap (y : Z) : bool :=
  (y mod 4 =? 0) && (negb (y mod 100 =? 0) || (y mod 400 =? 0)).

Definition days_in_month (y m : Z) : Z :=
  if m =? 2 then (if is_leap y then 29 else 28)
  else if (m =? 4) || (m =? 6) || (m =? 9) || (m =? 11) then 30
  else 31.

Definition datetime_ok (d : datetime) : bool :=
  (1 <=? year d) && (year d <=? 9999)
  && (1 <=? month d) && (month d <=? 12)
  && (1 <=? day d) && (day d <=? days_in_month (year d) (month d))
  && (0 <=? hour d) && (hour d <? 24)
  && (0 <=? minute d) && (minute d <? 60)
  && (0 <=? second d) && (second d <? 60)
  && (0 <=? microsecond d) && (microsecond d <? 1000000).

(** *** [datetime.isoformat] and [datetime.fromisoformat] *)

Definition digit_char (n : Z) : ascii :=
  ascii_of_nat (48 + Z.to_nat (n mod 10)).

Definition digit_value (c : ascii) : Z := Z.of_nat (nat_of_ascii c) - 48.

(** ["%0wd" % n] for [0 <= n < 10^w], the only values a [datetime]
    field takes: exactly [w] digits. *)
Fixpoint zero_pad (w : nat) (n : Z) : string :=
  match w with
  | O => EmptyString
  | S w' => String (digit_char (n / 10 ^ Z.of_nat w'))
                   (zero_pad w' (n mod 10 ^ Z.of_nat w'))
  end.

Definition isoformat (d : datetime) : string :=
  zero_pad 4 (year d) +:+ "-" +:+ zero_pad 2 (month d) +:+ "-" +:+
  zero_pad 2 (day d) +:+ "T" +:+ zero_pad 2 (hour d) +:+ ":" +:+
  zero_pad 2 (minute d) +:+ ":" +:+ zero_pad 2 (second d) +:+
  (if microsecond d =? 0 then "" else "." +:+ zero_pad 6 (microsecond d)).

Fixpoint read_digits (k : nat) (acc : Z) (s : string) : option (Z * string) :=
  match k with
  | O => Some (acc, s)
  | S k' =>
      match s with
      | String c s' =>
          if Py.is_digit c then read_digits k' (10 * acc + digit_value c) s'
          else None
      | EmptyString => None
      end
  end.

Definition expect (c : ascii) (s : string) : option string :=
  match s with
  | String c' s' => if Ascii.eqb c c' then Some s' else None
  | EmptyString => None
  end.

Definition skip_char (s : string) : option string :=
  match s with String _ s' => Some s' | EmptyString => None end.

(** The two shapes [isoformat] gives a naive [datetime]:
    [YYYY-MM-DD?HH:MM:SS] and [YYYY-MM-DD?HH:MM:SS.ffffff], with any
    separator character, and fields in range.  [None] stands for the
    [ValueError] of an invalid isoformat string. *)
Definition fromisoformat (s : string) : option datetime :=
  '(y, s) ← read_digits 4 0 s;
  s ← expect "-" s;
  '(mo, s) ← read_digits 2 0 s;
  s ← expect "-" s;
  '(d, s) ← read_digits 2 0 s;
  s ← skip_char s;
  '(h, s) ← read_digits 2 0 s;
  s ← expect ":" s;
  '(mi, s) ← read_digits 2 0 s;
  s ← expect ":" s;
  '(sec, s) ← read_digits 2 0 s;
  '(us, s) ← match s with
              | EmptyString => Some (0, EmptyString)
              | String "." s' => read_digits 6 0 s'
              | _ => None
              end;
  let dt := {| year := y; month := mo; day := d; hour := h;
               minute := mi; second := sec; microsecond := us |} in
  match s with
  | EmptyString => if datetime_ok dt then Some dt else None
  | _ => None
  end.

End models.
Import models.

(** ** [src/storage.py] *)

Module storage.

(** What [json.loads] returns: [None], [bool], [int], [float], [str],
    [list], and [dict] as the list of its items in order (the keys of a
    [dict] are distinct). *)
Inductive json :=
| JNull
| JBool (b : bool)
| JInt (n : Z)
| JFloat (literal : string)
| JString (s : string)
| JArray (xs : list json)
| JObject (items : list (string * json)).

(** The exceptions that reach the caller.  [ValueError] carries the
    message; those raised inside library calls carry an abridged one.
    [Untyped] is not a Python exception: it marks a stored [id] or
    [title] whose JSON type the fields [id : Optional[int]] and
    [title : str] of [Task] do not hold (Python would keep the value as
    it is). *)
Inductive exn :=
| JSONDecodeError
| KeyError (key : string)
| ValueError (msg : string)
| TypeError
| AttributeError
| Untyped (field : string).

#[global] Instance result_ret : MRet (sum exn) := λ A x, inr x.
#[global] Instance result_fmap : FMap (sum exn) := λ A B f r,
  match r with inl e => inl e | inr x => inr (f x) end.
#[global] Instance result_bind : MBind (sum exn) := λ A B k r,
  match r with inl e => inl e | inr x => k x end.

(** The backing file, when it exists, by what [load] makes of its text:
    [content.strip()] is empty, [json.loads(content)] raises, or
    [json.loads(content)] returns [data]. *)
Inductive file_content :=
| Blank
| Malformed
| Json (data : json).

(** [None] when [file_path] does not exist. *)
Definition file := option file_content.

(** The abstract base class [Storage]. *)
Class Storage (S : Type) := {
  save : gmap Z Task → S → S;
  load : S → exn + gmap Z Task;
  delete : S → S
}.

(** *** [JsonStorage.save] *)

Definition serializable_task (task : Task) : json :=
  JObject [
    ("id", match id task with Some n => JInt n | None => JNull end);
    ("title", JString (title task));
    ("status", JString (Status_value (status task)));
    ("priority", JString (Priority_value (priority task)));
    ("created_at", JString (isoformat (created_at task)))
  ].

Definition serializable_tasks (items : list (Z * Task)) : json :=
  JObject (map (λ '(task_id, task), (Py.str task_id, serializable_task task)) items).

(** [open(file_path, 'w')] and [json.dump]: the previous content is
    replaced as a whole. *)
Definition JsonStorage_save (tasks : gmap Z Task) (f : file) : file :=
  Some (Json (serializable_tasks (map_to_list tasks))).

(** *** [JsonStorage.load] *)

Fixpoint dict_get (items : list (string * json)) (key : string) : option json :=
  match items with
  | [] => None
  | (k, v) :: rest => if String.eqb k key then Some v else dict_get rest key
  end.

(** [task_data[key]] *)
Definition getitem (task_data : json) (key : string) : exn + json :=
  match task_data with
  | JObject items =>
      match dict_get items key with
      | Some v => inr v
      | None => inl (KeyError key)
      end
  | _ => inl TypeError
  end.

(** [Status(v)], [Priority(v)], [datetime.fromisoformat(v)], [int(s)] *)
Definition Status_call (v : json) : exn + Status :=
  match v with
  | JString s =>
      match Status_of_value s with
      | Some x => inr x
      | None => inl (ValueError "not a valid Status")
      end
  | _ => inl (ValueError "not a valid Status")
  end.

Definition Priority_call (v : json) : exn + Priority :=
  match v with
  | JString s =>
      match Priority_of_value s with
      | Some x => inr x
      | None => inl (ValueError "not a valid Priority")
      end
  | _ => inl (ValueError "not a valid Priority")
  end.

Definition fromisoformat_call (v : json) : exn + datetime :=
  match v with
  | JString s =>
      match fromisoformat s with
      | Some d => inr d
      | None => inl (ValueError "Invalid isoformat string")
      end
  | _ => inl TypeError
  end.

Definition int_call (s : string) : exn + Z :=
  match Py.int s with
  | Some n => inr n
  | None => inl (ValueError "invalid literal for int() with base 10")
  end.

(** [Task(id=.., title=.., status=.., priority=.., created_at=..)] on
    the evaluated arguments. *)
Definition make_Task (raw_id raw_title : json) (st : Status) (pr : Priority)
    (created : datetime) : exn + Task :=
  match raw_id, raw_title with
  | JInt n, JString s =>
      inr {| id := Some n; title := s; status := st; priority := pr; created_at := created |}
  | JNull, JString s =>
      inr {| id := None; title := s; status := st; priority := pr; created_at := created |}
  | JInt _, _ | JNull, _ => inl (Untyped "title")
  | _, _ => inl (Untyped "id")
  end.

(** The arguments are evaluated from left to right. *)
Definition load_task (task_data : json) : exn + Task :=
  raw_id ← getitem task_data "id";
  raw_title ← getitem task_data "title";
  st ← getitem task_data "status" ≫= Status_call;
  pr ← getitem task_data "priority" ≫= Priority_call;
  created ← getitem task_data "created_at" ≫= fromisoformat_call;
  make_Task raw_id raw_title st pr created.

(** The loop [for task_id_str, task_data in data.items()]. *)
Fixpoint load_items (items : list (string * json)) (tasks : gmap Z Task)
    : exn + gmap Z Task :=
  match items with
  | [] => inr tasks
  | (task_id_str, task_data) :: rest =>
      task ← load_task task_data;
      task_id ← int_call task_id_str;
      load_items rest (<[task_id := task]> tasks)
  end.

Definition load_data (data : json) : exn + gmap Z Task :=
  match data with
  | JObject items => load_items items ∅
  | _ => inl AttributeError
  end.

Definition JsonStorage_load (f : file) : exn + gmap Z Task :=
  match f with
  | None => inr ∅
  | Some Blank => inr ∅
  | Some Malformed => inl JSONDecodeError
  | Some (Json data) => load_data data
  end.

(** *** [JsonStorage.delete] *)
Definition JsonStorage_delete (f : file) : file := None.

#[global] Instance JsonStorage : Storage file := {|
  save := JsonStorage_save;
  load := JsonStorage_load;
  delete := JsonStorage_delete
|}.

End storage.
Import storage.

(** ** [src/repository.py] *)

Module repository.

(** An operation of the repository, on a storage of type [S]: it returns
    a value or raises, and leaves the storage in a new state. *)
Definition M (S A : Type) : Type := S → (exn + A) * S.

#[global] Instance M_ret {S} : MRet (M S) := λ A x st, (inr x, st).
#[global] Instance M_bind {S} : MBind (M S) := λ A B k m st,
  match m st with
  | (inl e, st') => (inl e, st')
  | (inr x, st') => k x st'
  end.

Definition raise {S A} (e : exn) : M S A := λ st, (inl e, st).

(** A computation that does not touch the storage. *)
Definition pure {S A} (r : exn + A) : M S A := λ st, (r, st).

Section TaskRepository.
Context {S : Type} `{!Storage S}.

(** [self.storage.load()] and [self.storage.save(tasks)] *)
Definition storage_load : M S (gmap Z Task) := λ st, (load st, st).
Definition storage_save (tasks : gmap Z Task) : M S unit :=
  λ st, (inr (), save tasks st).

(** [tasks.keys()] *)
Definition keys (tasks : gmap Z Task) : list Z := (map_to_list tasks).*1.

(** [tasks[task_id]] *)
Definition subscript (tasks : gmap Z Task) (task_id : Z) : exn + Task :=
  match tasks !! task_id with
  | Some task => inr task
  | None => inl (KeyError (Py.str task_id))
  end.

(** [now] is the value of [datetime.now()] when the task is built. *)
Definition create_task (title : string) (priority : Priority) (now : datetime)
    : M S Task :=
  tasks ← storage_load;
  let next_id := Py.max_default (keys tasks) 0 + 1 in
  let task := {| id := Some next_id; title := title; priority := priority;
                 status := PENDING; created_at := now |} in
  storage_save (<[next_id := task]> tasks);;
  mret task.

Definition get_all_tasks (status : option Status) : M S (list Task) :=
  tasks ← storage_load;
  let tasks :=
    match status with
    | Some s => filter (λ kt, models.status kt.2 = s) tasks
    | None => tasks
    end in
  pure (mapM (M := sum exn) (subscript tasks) (merge_sort Z.le (keys tasks))).

Definition get_task (task_id : Z) : M S (option Task) :=
  tasks ← storage_load;
  mret (tasks !! task_id).

Definition update_task (task : Task) : M S Task :=
  match id task with
  | None => raise (ValueError "Task ID cannot be None")
  | Some task_id =>
      tasks ← storage_load;
      match tasks !! task_id with
      | None =>
          raise (ValueError ("Task with ID " +:+ Py.str task_id +:+ " does not exist"))
      | Some _ =>
          storage_save (<[task_id := task]> tasks);;
          mret task
      end
  end.

Definition delete_task (task_id : Z) : M S bool :=
  tasks ← storage_load;
  match tasks !! task_id with
  | None => mret false
  | Some _ =>
      storage_save (base.delete task_id tasks);;
      mret true
  end.

Definition mark_done (task_id : Z) : M S (option Task) :=
  task ← get_task task_id;
  match task with
  | None => mret None
  | Some task =>
      task ← update_task (set_status DONE task);
      mret (Some task)
  end.

End TaskRepository.

End repository.
Import repository.

(** ** Sequences of calls *)

Module calls.

Inductive call :=
| Create (title : string) (priority : Priority) (now : datetime)
| Update (task : Task)
| Delete (task_id : Z)
| MarkDone (task_id : Z).

(** The timestamps a caller passes in are real [datetime] values. *)
Definition call_ok (c : call) : Prop :=
  match c with
  | Create _ _ now => datetime_ok now = true
  | Update task => datetime_ok (created_at task) = true
  | Delete _ | MarkDone _ => True
  end.

Section run.
Context {S : Type} `{!Storage S}.

(** The storage after a call, whether it returned or raised. *)
Definition perform (c : call) (st : S) : S :=
  match c with
  | Create title priority now => (create_task title priority now st).2
  | Update task => (update_task task st).2
  | Delete task_id => (delete_task task_id st).2
  | MarkDone task_id => (mark_done task_id st).2
  end.

(** The id that a call hands out, if it is a [create_task]. *)
Definition assigned (c : call) (st : S) : list Z :=
  match c with
  | Create title priority now =>
      match (create_task title priority now st).1 with
      | inr task => option_list (id task)
      | inl _ => []
      end
  | _ => []
  end.

Fixpoint run (cs : list call) (st : S) : S :=
  match cs with
  | [] => st
  | c :: cs' => run cs' (perform c st)
  end.

Fixpoint assigned_ids (cs : list call) (st : S) : list Z :=
  match cs with
  | [] => []
  | c :: cs' => assigned c st ++ assigned_ids cs' (perform c st)
  end.

End run.

End calls.
Import calls.

(** ** Two processes on one file: [load] against [save]

    One process runs [JsonStorage.load], another runs [JsonStorage.save];
    each step below is one system call of the source, in program order.
    [flock] is advisory: [LOCK_SH] is granted unless another process holds
    [LOCK_EX], [LOCK_EX] is granted when no other process holds a lock, and
    nothing but [flock] itself looks at the locks.  Reading the whole file
    and writing the whole document are each taken as one step. *)

Module locking.

Inductive process := Reader | Writer.

(** Where the reader is in [load]. *)
Inductive reader_pc :=
| R_open                            (* at [file_path.exists()] and [open(file_path, 'r')] *)
| R_lock                            (* at [fcntl.flock(f.fileno(), fcntl.LOCK_SH)] *)
| R_read                            (* at [f.read()] *)
| R_unlock (content : file_content) (* at [fcntl.flock(f.fileno(), fcntl.LOCK_UN)] *)
| R_done (result : exn + gmap Z Task).

(** Where the writer is in [save]. *)
Inductive writer_pc :=
| W_open      (* at [open(file_path, 'w')] *)
| W_lock      (* at [fcntl.flock(f.fileno(), fcntl.LOCK_EX)] *)
| W_dump      (* at [json.dump(serializable_tasks, f, indent=2)] *)
| W_unlock    (* at [fcntl.flock(f.fileno(), fcntl.LOCK_UN)] *)
| W_done.

Record system := {
  disk : file;
  shared : bool;      (* the reader holds [LOCK_SH] *)
  exclusive : bool;   (* the writer holds [LOCK_EX] *)
  reader : reader_pc;
  writer : writer_pc
}.

(** One step of the reader; [None] when it is blocked or has returned. *)
Definition step_reader (s : system) : option system :=
  match reader s with
  | R_open =>
      match disk s with
      | None =>
          Some {| disk := disk s; shared := shared s; exclusive := exclusive s;
                  reader := R_done (inr ∅); writer := writer s |}
      | Some _ =>
          Some {| disk := disk s; shared := shared s; exclusive := exclusive s;
                  reader := R_lock; writer := writer s |}
      end
  | R_lock =>
      if exclusive s then None
      else Some {| disk := disk s; shared := true; exclusive := exclusive s;
                   reader := R_read; writer := writer s |}
  | R_read =>
      match disk s with
      | None => None
      | Some content =>
          Some {| disk := disk s; shared := shared s; exclusive := exclusive s;
                  reader := R_unlock content; writer := writer s |}
      end
  | R_unlock content =>
      Some {| disk := disk s; shared := false; exclusive := exclusive s;
              reader := R_done (JsonStorage_load (Some content)); writer := writer s |}
  | R_done _ => None
  end.

(** One step of the writer saving [tasks].  [open(file_path, 'w')]
    creates the file or truncates it to length zero. *)
Definition step_writer (tasks : gmap Z Task) (s : system) : option system :=
  match writer s with
  | W_open =>
      Some {| disk := Some Blank; shared := shared s; exclusive := exclusive s;
              reader := reader s; writer := W_lock |}
  | W_lock =>
      if shared s then None
      else Some {| disk := disk s; shared := shared s; exclusive := true;
                   reader := reader s; writer := W_dump |}
  | W_dump =>
      Some {| disk := JsonStorage_save tasks (disk s); shared := shared s;
              exclusive := exclusive s; reader := reader s; writer := W_unlock |}
  | W_unlock =>
      Some {| disk := disk s; shared := shared s; exclusive := false;
              reader := reader s; writer := W_done |}
  | W_done => None
  end.

Definition step (tasks : gmap Z Task) (p : process) (s : system) : option system :=
  match p with
  | Reader => step_reader s
  | Writer => step_writer tasks s
  end.

(** The steps of a schedule, in order; [None] when the schedule runs a
    process that cannot move. *)
Fixpoint exec (tasks : gmap Z Task) (schedule : list process) (s : system)
    : option system :=
  match schedule with
  | [] => Some s
  | p :: rest =>
      match step tasks p s with
      | Some s' => exec tasks rest s'
      | None => None
      end
  end.

(** Both processes at their first step, no lock held. *)
Definition initial (f : file) : system :=
  {| disk := f; shared := false; exclusive := false;
     reader := R_open; writer := W_open |}.

End locking.

(** ** Predicates used in the statements *)

(** One step of the loop of [load] on an already decoded item. *)
Definition insert_item (tasks : gmap Z Task) (item : Z * Task) : gmap Z Task :=
  <[item.1 := item.2]> tasks.


Fixpoint all_chars (P : ascii → bool) (s : string) : bool :=
  match s with
  | EmptyString => true
  | String c s' => P c && all_chars P s'
  end.

(** Every task of the collection holds a [created_at] that a [datetime]
    can hold. *)
Definition tasks_ok (tasks : gmap Z Task) : Prop :=
  map_Forall (λ _ task, datetime_ok (created_at task) = true) tasks.

(** Each key of the collection is the [id] of the task stored under it. *)
Definition keyed_by_id (tasks : gmap Z Task) : Prop :=
  ∀ k task, tasks !! k = Some task → id task = Some k.

(** The five fields [load] reads from a stored task object. *)
Definition required_fields : list string :=
  ["id"; "title"; "status"; "priority"; "created_at"].

(** The class of an exception, by its Python name. *)
Definition exn_class (e : exn) : string :=
  match e with
  | JSONDecodeError => "json.JSONDecodeError"
  | KeyError _ => "KeyError"
  | ValueError _ => "ValueError"
  | TypeError => "TypeError"
  | AttributeError => "AttributeError"
  | Untyped _ => "(none)"
  end.

(** [status is None or task.status == status] *)
Definition matches (status : option Status) (task : Task) : Prop :=
  match status with
  | Some s => models.status task = s
  | None => True
  end.

(** ** Sample values *)

Definition sample_time : datetime :=
  {| year := 2024; month := 1; day := 1; hour := 12; minute := 0;
     second := 0; microsecond := 250000 |}.

Definition sample_task (n : Z) (s : string) : Task :=
  {| id := Some n; title := s; status := PENDING; priority := MEDIUM;
     created_at := sample_time |}.

Definition unset_task : Task :=
  {| id := None; title := "no id"; status := PENDING; priority := MEDIUM;
     created_at := sample_time |}.

(** The collection in the file, and the one a concurrent [save] writes. *)
Definition old_tasks : gmap Z Task := {[ 1 := sample_task 1 "A" ]}.
Definition new_tasks : gmap Z Task :=
  {[ 1 := sample_task 1 "A"; 2 := sample_task 2 "B" ]}.

(** ** [src/cli.py] *)

Module cli.

(** What [parser.parse_args(argv)] returns: [command] and the attributes
    that the parser of that sub-command sets ([priority] and [status] are
    still the strings of the command line). *)
Inductive Namespace :=
| NoCommand
| AddArgs (title : string) (priority : string)
| ListArgs (status : option string)
| DoneArgs (id : Z)
| DeleteArgs (id : Z).

(** [args.command], [args.title], [args.priority], [args.status],
    [args.id]; an attribute that the namespace does not have raises
    [AttributeError]. *)
Definition command (args : Namespace) : option string :=
  match args with
  | NoCommand => None
  | AddArgs _ _ => Some "add"
  | ListArgs _ => Some "list"
  | DoneArgs _ => Some "done"
  | DeleteArgs _ => Some "delete"
  end.

Definition attr_title (args : Namespace) : exn + string :=
  match args with AddArgs title _ => inr title | _ => inl AttributeError end.

Definition attr_priority (args : Namespace) : exn + string :=
  match args with AddArgs _ priority => inr priority | _ => inl AttributeError end.

Definition attr_status (args : Namespace) : exn + option string :=
  match args with ListArgs status => inr status | _ => inl AttributeError end.

Definition attr_id (args : Namespace) : exn + Z :=
  match args with
  | DoneArgs i | DeleteArgs i => inr i
  | _ => inl AttributeError
  end.

(** What [print] writes: a line on standard output, a line on
    [sys.stderr], or the help text of [parser.print_help()]. *)
Inductive line :=
| Stdout (text : string)
| Stderr (text : string)
| Help.

(** [f"{task.id}"] for an [Optional[int]] *)
Definition format_id (i : option Z) : string :=
  match i with Some n => Py.str n | None => "None" end.

(** [Priority(v)] and [Status(v)] on a string of the command line *)
Definition Priority_of (v : string) : exn + Priority :=
  match Priority_of_value v with
  | Some p => inr p
  | None => inl (ValueError "not a valid Priority")
  end.

Definition Status_of (v : string) : exn + Status :=
  match Status_of_value v with
  | Some s => inr s
  | None => inl (ValueError "not a valid Status")
  end.

(** The line of [cmd_list] for one task. *)
Definition list_line (task : Task) : line :=
  let status_icon := if decide (status task = DONE) then "✓" else " " in
  Stdout ("[" +:+ status_icon +:+ "] #" +:+ format_id (id task) +:+ " " +:+ title task
          +:+ " [" +:+ Priority_value (priority task) +:+ "] ("
          +:+ Status_value (status task) +:+ ")").

Section handlers.
Context {S : Type} `{!Storage S}.

(** A handler returns what it printed and its exit code. *)
Definition cmd_add (now : datetime) (args : Namespace) : M S (list line * Z) :=
  priority ← pure (attr_priority args ≫= Priority_of);
  title ← pure (attr_title args);
  task ← create_task title priority now;
  mret ([Stdout ("Task added: #" +:+ format_id (id task) +:+ " " +:+ models.title task
                 +:+ " [" +:+ Priority_value (models.priority task) +:+ "]")], 0).

Definition cmd_list (args : Namespace) : M S (list line * Z) :=
  status ← pure (attr_status args ≫= λ v,
                   match v with
                   | None => inr None
                   | Some s => if decide (s = "") then inr None else Some <$> Status_of s
                   end);
  tasks ← get_all_tasks status;
  match tasks with
  | [] => mret ([Stdout "No tasks found."], 0)
  | _ => mret (list_line <$> tasks, 0)
  end.

Definition cmd_done (args : Namespace) : M S (list line * Z) :=
  task_id ← pure (attr_id args);
  task ← mark_done task_id;
  match task with
  | None => mret ([Stderr ("Error: Task #" +:+ Py.str task_id +:+ " not found.")], 1)
  | Some task =>
      mret ([Stdout ("Task #" +:+ format_id (id task) +:+ " marked as done: "
                     +:+ title task)], 0)
  end.

Definition cmd_delete (args : Namespace) : M S (list line * Z) :=
  task_id ← pure (attr_id args);
  deleted ← delete_task task_id;
  if deleted : bool
  then mret ([Stdout ("Task #" +:+ Py.str task_id +:+ " deleted.")], 0)
  else mret ([Stderr ("Error: Task #" +:+ Py.str task_id +:+ " not found.")], 1).

(** The dictionary [commands] of [main]. *)
Definition commands (now : datetime)
    : list (string * (Namespace → M S (list line * Z))) :=
  [("add", cmd_add now); ("list", cmd_list); ("done", cmd_done);
   ("delete", cmd_delete)].

Fixpoint commands_get {H : Type} (cs : list (string * H)) (name : string) : option H :=
  match cs with
  | [] => None
  | (k, h) :: rest => if String.eqb k name then Some h else commands_get rest name
  end.

(** [main] from the parsed arguments on. *)
Definition main (now : datetime) (args : Namespace) : M S (list line * Z) :=
  match command args with
  | None => mret ([Help], 1)
  | Some name =>
      match commands_get (commands now) name with
      | None => mret ([Stderr ("Error: Unknown command '" +:+ name +:+ "'")], 1)
      | Some handler => handler args
      end
  end.

End handlers.

End cli.
Import cli.

(** ** More predicates used in the statements *)

Definition is_create (c : call) : Prop :=
  match c with Create _ _ _ => True | _ => False end.

(** The command-line values that the parser admits for [--priority] and
    [--status]. *)
Definition priority_choices : list string := ["low"; "medium"; "high"].
Definition status_choices : list string := ["pending"; "done"].

(** * Properties *)

Example str_examples :
  Py.str 0 = "0" ∧ Py.str 42 = "42" ∧ Py.str (-7) = "-7".
Proof. repeat split. Qed.

Example int_examples :
  Py.int "42" = Some 42 ∧ Py.int " -7 " = Some (-7) ∧ Py.int "1_000" = Some 1000
  ∧ Py.int "01" = Some 1 ∧ Py.int "" = None ∧ Py.int "1__0" = None
  ∧ Py.int "_1" = None ∧ Py.int "1_" = None ∧ Py.int "- 1" = None
  ∧ Py.int "abc" = None ∧ Py.int "+5" = Some 5.
Proof. repeat split. Qed.

Example max_default_examples :
  Py.max_default [] 0 = 0 ∧ Py.max_default [3; 9; 4] 0 = 9
  ∧ Py.max_default [-5] 0 = -5.
Proof. repeat split. Qed.

Example isoformat_examples :
  isoformat {| year := 2024; month := 1; day := 2; hour := 12; minute := 0;
               second := 5; microsecond := 0 |} = "2024-01-02T12:00:05"
  ∧ isoformat {| year := 987; month := 11; day := 30; hour := 23; minute := 59;
                 second := 59; microsecond := 1200 |}
    = "0987-11-30T23:59:59.001200".
Proof. split; reflexivity. Qed.

Example fromisoformat_examples :
  fromisoformat "2024-01-02T12:00:05"
  = Some {| year := 2024; month := 1; day := 2; hour := 12; minute := 0;
            second := 5; microsecond := 0 |}
  ∧ fromisoformat "2024-02-29 23:59:59.001200"
    = Some {| year := 2024; month := 2; day := 29; hour := 23; minute := 59;
              second := 59; microsecond := 1200 |}
  ∧ fromisoformat "2023-02-29T00:00:00" = None
  ∧ fromisoformat "yesterday" = None.
Proof. repeat split. Qed.

Example save_load_example :
  load (save {[ 1 := sample_task 1 "A"; 2 := sample_task 2 "B" ]} (None : file))
  = inr {[ 1 := sample_task 1 "A"; 2 := sample_task 2 "B" ]}.
Proof. vm_compute. reflexivity. Qed.

Example create_delete_create :
  let st0 : file := None in
  let '(a, st1) := create_task "A" MEDIUM sample_time st0 in
  let '(b, st2) := create_task "B" MEDIUM sample_time st1 in
  let '(r, st3) := delete_task 1 st2 in
  let '(c, st4) := create_task "C" HIGH sample_time st3 in
  (id <$> a, id <$> b, r, id <$> c, (map id) <$> fst (get_all_tasks None st4))
  = (inr (Some 1), inr (Some 2), inr true, inr (Some 3), inr [Some 2; Some 3]).
Proof. vm_compute. reflexivity. Qed.

(** The conversions between values and text are not unfolded by [simpl]. *)
Arguments zero_pad : simpl never.
Arguments isoformat : simpl never.
Arguments fromisoformat : simpl never.
Arguments Py.str : simpl never.
Arguments Py.int : simpl never.

(** ** [str] and [int] on integers *)

Section py_int_str.

Lemma digit_not_space c : Py.is_digit c = true → Py.is_space c = false.
Proof.
  unfold Py.is_digit, Py.is_space. intros H.
  apply andb_true_iff in H as [H1 H2].
  apply Nat.leb_le in H1. apply Nat.leb_le in H2.
  repeat (apply orb_false_iff; split).
  - apply Nat.eqb_neq. lia.
  - apply andb_false_iff. right. apply Nat.leb_gt. lia.
  - apply andb_false_iff. right. apply Nat.leb_gt. lia.
Qed.

Lemma digit_not_sign c :
  Py.is_digit c = true → Ascii.eqb c "-" = false ∧ Ascii.eqb c "+" = false.
Proof.
  intros H. split.
  - destruct (Ascii.eqb_spec c "-") as [->|]; [discriminate H | done].
  - destruct (Ascii.eqb_spec c "+") as [->|]; [discriminate H | done].
Qed.

Lemma digit_not_underscore c : Py.is_digit c = true → Ascii.eqb c "_" = false.
Proof.
  intros H. destruct (Ascii.eqb_spec c "_") as [->|]; [discriminate H | done].
Qed.

Lemma string_of_uint_digits d :
  all_chars Py.is_digit (NilEmpty.string_of_uint d) = true.
Proof. induction d; simpl; auto. Qed.

Lemma string_of_uint_nonempty d :
  d ≠ Decimal.Nil → NilEmpty.string_of_uint d ≠ EmptyString.
Proof. destruct d; simpl; congruence. Qed.

Lemma rstrip_digits s : all_chars Py.is_digit s = true → Py.rstrip s = s.
Proof.
  induction s as [|c s IH]; simpl; [done|].
  intros [Hc Hs]%andb_true_iff. rewrite (IH Hs).
  destruct s; [|done]. by rewrite (digit_not_space _ Hc).
Qed.

Lemma strip_digits s : all_chars Py.is_digit s = true → Py.strip s = s.
Proof.
  intros H. unfold Py.strip.
  destruct s as [|c s]; simpl in *; [done|].
  apply andb_true_iff in H as [Hc Hs].
  rewrite (digit_not_space _ Hc).
  apply rstrip_digits. simpl. by rewrite Hc, Hs.
Qed.

Lemma literal_digits_all b s :
  all_chars Py.is_digit s = true → s ≠ EmptyString →
  Py.literal_digits b s = Some s.
Proof.
  revert b. induction s as [|c s IH]; intros b H Hne; [done|].
  simpl in *. apply andb_true_iff in H as [Hc Hs]. rewrite Hc.
  destruct s as [|c' s'].
  - reflexivity.
  - rewrite (IH true Hs); done.
Qed.

Lemma unsigned_literal_string_of_uint d :
  d ≠ Decimal.Nil →
  Py.unsigned_literal (NilEmpty.string_of_uint d) = Some (Z.of_uint d).
Proof.
  intros Hd. unfold Py.unsigned_literal.
  rewrite literal_digits_all
    by auto using string_of_uint_digits, string_of_uint_nonempty.
  simpl. by rewrite NilEmpty.usu.
Qed.

Lemma string_of_pos p :
  NilZero.string_of_uint (Pos.to_uint p) = NilEmpty.string_of_uint (Pos.to_uint p).
Proof.
  pose proof (Unsigned.to_uint_nonnil p). by destruct (Pos.to_uint p).
Qed.

Lemma of_uint_pos p : Z.of_uint (Pos.to_uint p) = Z.pos p.
Proof. unfold Z.of_uint. by rewrite DecimalPos.Unsigned.of_to. Qed.

Lemma int_unsigned s :
  all_chars Py.is_digit s = true → s ≠ EmptyString →
  Py.int s = Py.unsigned_literal s.
Proof.
  intros H Hne. unfold Py.int. rewrite (strip_digits _ H).
  destruct s as [|c s]; [done|]. simpl in H.
  apply andb_true_iff in H as [Hc _].
  destruct (digit_not_sign _ Hc) as [-> ->]. done.
Qed.

Lemma int_negative s :
  all_chars Py.is_digit s = true →
  Py.int (String "-" s) = Z.opp <$> Py.unsigned_literal s.
Proof.
  intros H. unfold Py.int, Py.strip.
  change (Py.lstrip (String "-" s)) with (String "-" s).
  change (Py.rstrip (String "-" s)) with
    (match Py.rstrip s with
     | EmptyString => String "-" EmptyString
     | r => String "-" r
     end).
  rewrite (rstrip_digits _ H). by destruct s.
Qed.

(** [int(str(n)) == n] for every integer. *)
Lemma int_str n : Py.int (Py.str n) = Some n.
Proof.
  destruct n as [|p|p]; [done| |]; unfold Py.str; simpl.
  - rewrite string_of_pos.
    rewrite int_unsigned
      by auto using string_of_uint_digits, string_of_uint_nonempty,
                    Unsigned.to_uint_nonnil.
    rewrite unsigned_literal_string_of_uint by apply Unsigned.to_uint_nonnil.
    by rewrite of_uint_pos.
  - rewrite string_of_pos, int_negative by apply string_of_uint_digits.
    rewrite unsigned_literal_string_of_uint by apply Unsigned.to_uint_nonnil.
    by rewrite of_uint_pos.
Qed.

Lemma str_inj n m : Py.str n = Py.str m → n = m.
Proof.
  intros H. apply (f_equal Py.int) in H. rewrite !int_str in H. congruence.
Qed.

End py_int_str.

(** ** [isoformat] and [fromisoformat] *)

Section isoformat_roundtrip.

Lemma digit_char_value n :
  0 ≤ n < 10 →
  Py.is_digit (digit_char n) = true ∧ digit_value (digit_char n) = n.
Proof.
  intros H.
  assert (n = 0 ∨ n = 1 ∨ n = 2 ∨ n = 3 ∨ n = 4 ∨ n = 5 ∨ n = 6 ∨ n = 7
          ∨ n = 8 ∨ n = 9) as Hn by lia.
  repeat (destruct Hn as [->|Hn]; [by split|]). by subst.
Qed.

Lemma append_cons c (s r : string) : String c s +:+ r = String c (s +:+ r).
Proof. reflexivity. Qed.

Lemma zero_pad_S w n :
  zero_pad (S w) n
  = String (digit_char (n / 10 ^ Z.of_nat w)) (zero_pad w (n mod 10 ^ Z.of_nat w)).
Proof. reflexivity. Qed.

Lemma read_zero_pad w n acc rest :
  0 ≤ n < 10 ^ Z.of_nat w →
  read_digits w acc (zero_pad w n +:+ rest) = Some (acc * 10 ^ Z.of_nat w + n, rest).
Proof.
  revert n acc. induction w as [|w IH]; intros n acc Hn.
  - simpl in *. f_equal. f_equal. lia.
  - rewrite Nat2Z.inj_succ, Z.pow_succ_r in * by lia.
    assert (0 < 10 ^ Z.of_nat w) as Hpos by (apply Z.pow_pos_nonneg; lia).
    assert (0 ≤ n / 10 ^ Z.of_nat w < 10) as Hq.
    { split; [apply Z.div_pos; lia|]. apply Z.div_lt_upper_bound; lia. }
    pose proof (Z.mod_pos_bound n _ Hpos) as Hr.
    destruct (digit_char_value _ Hq) as [Hd Hv].
    rewrite zero_pad_S, append_cons. cbn [read_digits]. rewrite Hd, Hv, IH by done.
    f_equal. f_equal.
    pose proof (Z.div_mod n (10 ^ Z.of_nat w)). nia.
Qed.

Lemma read_zero_pad_0 w n rest :
  0 ≤ n < 10 ^ Z.of_nat w →
  read_digits w 0 (zero_pad w n +:+ rest) = Some (n, rest).
Proof. intros H. by rewrite read_zero_pad. Qed.

Lemma append_empty (s : string) : s +:+ "" = s.
Proof. induction s as [|c s IH]; [done|]. by rewrite append_cons, IH. Qed.

Lemma append_nil (s : string) : "" +:+ s = s.
Proof. reflexivity. Qed.

Lemma days_in_month_le y m : days_in_month y m ≤ 31.
Proof. unfold days_in_month. repeat case_match; lia. Qed.

Lemma datetime_ok_bounds d :
  datetime_ok d = true →
  0 ≤ year d < 10 ^ 4 ∧ 0 ≤ month d < 10 ^ 2 ∧ 0 ≤ day d < 10 ^ 2
  ∧ 0 ≤ hour d < 10 ^ 2 ∧ 0 ≤ minute d < 10 ^ 2 ∧ 0 ≤ second d < 10 ^ 2
  ∧ 0 ≤ microsecond d < 10 ^ 6.
Proof.
  unfold datetime_ok. rewrite !andb_true_iff.
  rewrite !Z.leb_le, !Z.ltb_lt.
  pose proof (days_in_month_le (year d) (month d)). lia.
Qed.

Ltac next_field :=
  rewrite ?append_cons, ?append_nil;
  cbn [mbind option_bind expect skip_char Ascii.eqb Bool.eqb].

(** [datetime.fromisoformat(d.isoformat()) == d] *)
Lemma fromisoformat_isoformat d :
  datetime_ok d = true → fromisoformat (isoformat d) = Some d.
Proof.
  intros Hok.
  destruct (datetime_ok_bounds d Hok) as (Hy & Hmo & Hd & Hh & Hmi & Hs & Hus).
  unfold fromisoformat, isoformat.
  rewrite (read_zero_pad_0 4) by done. next_field.
  rewrite (read_zero_pad_0 2) by done. next_field.
  rewrite (read_zero_pad_0 2) by done. next_field.
  rewrite (read_zero_pad_0 2) by done. next_field.
  rewrite (read_zero_pad_0 2) by done. next_field.
  destruct (Z.eqb_spec (microsecond d) 0) as [H0|H0].
  - rewrite (read_zero_pad_0 2) by done. next_field.
    rewrite <- H0. destruct d; cbn [year month day hour minute second microsecond] in *.
    by rewrite Hok.
  - rewrite (read_zero_pad_0 2) by done. next_field.
    rewrite <- (append_empty (zero_pad 6 _)).
    rewrite (read_zero_pad_0 6) by done. next_field.
    destruct d; cbn [year month day hour minute second microsecond] in *.
    by rewrite Hok.
Qed.

(** Whatever [fromisoformat] returns is a [datetime] with its fields in
    range. *)
Lemma fromisoformat_ok s d : fromisoformat s = Some d → datetime_ok d = true.
Proof.
  unfold fromisoformat. intros H.
  repeat (simplify_option_eq || case_match); done.
Qed.

End isoformat_roundtrip.

(** ** [JsonStorage]: what [save] writes, [load] reads back *)

Section json_storage.

Lemma Status_of_value_value s : Status_of_value (Status_value s) = Some s.
Proof. by destruct s. Qed.

Lemma Priority_of_value_value p : Priority_of_value (Priority_value p) = Some p.
Proof. by destruct p. Qed.

Lemma getitem_serializable task :
  getitem (serializable_task task) "id"
    = inr (match id task with Some n => JInt n | None => JNull end)
  ∧ getitem (serializable_task task) "title" = inr (JString (title task))
  ∧ getitem (serializable_task task) "status"
    = inr (JString (Status_value (status task)))
  ∧ getitem (serializable_task task) "priority"
    = inr (JString (Priority_value (priority task)))
  ∧ getitem (serializable_task task) "created_at"
    = inr (JString (isoformat (created_at task))).
Proof. repeat split. Qed.

Lemma load_task_serializable task :
  datetime_ok (created_at task) = true →
  load_task (serializable_task task) = inr task.
Proof.
  intros Hok. unfold load_task.
  destruct (getitem_serializable task) as (-> & -> & -> & -> & ->).
  cbn [mbind result_bind Status_call Priority_call fromisoformat_call].
  rewrite Status_of_value_value, Priority_of_value_value.
  rewrite (fromisoformat_isoformat _ Hok).
  by destruct task as [? ? ? [?|] ?].
Qed.

Lemma load_task_ok task_data task :
  load_task task_data = inr task → datetime_ok (created_at task) = true.
Proof.
  unfold load_task, make_Task, fromisoformat_call. intros H.
  destruct (getitem task_data "id") as [|raw_id]; [done|]; simpl in H.
  destruct (getitem task_data "title") as [|raw_title]; [done|]; simpl in H.
  destruct (getitem task_data "status" ≫= Status_call); [done|]; simpl in H.
  destruct (getitem task_data "priority" ≫= Priority_call); [done|]; simpl in H.
  destruct (getitem task_data "created_at") as [|v]; [done|]; simpl in H.
  destruct v as [| | | |iso| |]; try done.
  destruct (fromisoformat iso) as [d|] eqn:Hd; [|done].
  apply fromisoformat_ok in Hd. cbn [mbind result_bind] in H.
  destruct raw_id, raw_title; simplify_eq; done.
Qed.

Lemma load_items_serializable items tasks :
  Forall (λ item, datetime_ok (created_at item.2) = true) items →
  load_items (map (λ '(task_id, task), (Py.str task_id, serializable_task task)) items)
             tasks
  = inr (foldl insert_item tasks items).
Proof.
  intros H. revert tasks.
  induction H as [|[k t] items Ht _ IH]; intros tasks; [done|].
  cbn [map load_items]. cbn [snd] in Ht.
  rewrite (load_task_serializable t Ht).
  unfold int_call. rewrite int_str. cbn [mbind result_bind]. apply IH.
Qed.

Lemma foldl_insert_item_lookup items tasks k :
  NoDup items.*1 →
  foldl insert_item tasks items !! k
  = match (list_to_map items : gmap Z Task) !! k with
    | Some t => Some t
    | None => tasks !! k
    end.
Proof.
  revert tasks. induction items as [|[k' t] items IH]; intros tasks Hnd.
  - cbn. by rewrite lookup_empty.
  - apply NoDup_cons in Hnd as [Hk' Hnd]. cbn [foldl].
    rewrite list_to_map_cons.
    rewrite (IH _ Hnd). unfold insert_item at 1. cbn [fst snd].
    destruct (decide (k' = k)) as [->|Hne].
    + rewrite !lookup_insert_eq.
      by rewrite (proj1 (not_elem_of_list_to_map _ _) Hk').
    + rewrite !lookup_insert_ne by done. done.
Qed.

Lemma foldl_insert_item_empty items :
  NoDup items.*1 → foldl insert_item ∅ items = list_to_map items.
Proof.
  intros Hnd. apply map_eq. intros k.
  rewrite foldl_insert_item_lookup, lookup_empty by done.
  by destruct (_ !! k).
Qed.

Lemma load_items_ok items tasks loaded :
  tasks_ok tasks → load_items items tasks = inr loaded → tasks_ok loaded.
Proof.
  revert tasks. induction items as [|[s td] items IH]; intros tasks Hok H.
  - simpl in H. by simplify_eq.
  - cbn [load_items] in H.
    destruct (load_task td) as [|t] eqn:Ht; [done|]. simpl in H.
    destruct (int_call s) as [|k]; [done|]. simpl in H.
    eapply IH; [|done].
    apply map_Forall_insert_2; [|done]. by eapply load_task_ok.
Qed.

(** Every collection that [load] returns holds well-formed timestamps. *)
Lemma load_ok (f : file) tasks : load f = inr tasks → tasks_ok tasks.
Proof.
  destruct f as [[| |data]|]; simpl; intros H; simplify_eq;
    try apply map_Forall_empty.
  destruct data; try done. simpl in H.
  eapply load_items_ok; [|done]. apply map_Forall_empty.
Qed.

(** [load] after [save] returns the saved collection. *)
Lemma load_save (tasks : gmap Z Task) (f : file) :
  tasks_ok tasks → load (save tasks f) = inr tasks.
Proof.
  intros Hok. simpl. unfold serializable_tasks.
  rewrite load_items_serializable.
  - rewrite foldl_insert_item_empty by apply NoDup_fst_map_to_list.
    by rewrite list_to_map_to_list.
  - apply map_Forall_to_list in Hok.
    eapply Forall_impl; [done|]. by intros [??].
Qed.

End json_storage.

(** ** The repository, call by call *)

Section repository_calls.
Context {S : Type} `{!Storage S}.

Lemma create_task_run title priority now (st : S) tasks :
  load st = inr tasks →
  let next_id := Py.max_default (keys tasks) 0 + 1 in
  let task := {| id := Some next_id; title := title; priority := priority;
                 status := PENDING; created_at := now |} in
  create_task title priority now st
  = (inr task, save (<[next_id := task]> tasks) st).
Proof.
  intros H. unfold create_task, storage_load, storage_save, mbind, M_bind.
  by rewrite H.
Qed.

Lemma get_task_run task_id (st : S) tasks :
  load st = inr tasks → get_task task_id st = (inr (tasks !! task_id), st).
Proof.
  intros H. unfold get_task, storage_load, mbind, M_bind. by rewrite H.
Qed.

Lemma update_task_unset task (st : S) :
  id task = None →
  update_task task st = (inl (ValueError "Task ID cannot be None"), st).
Proof. intros H. unfold update_task. by rewrite H. Qed.

Lemma update_task_unknown task task_id (st : S) tasks :
  id task = Some task_id → load st = inr tasks → tasks !! task_id = None →
  update_task task st
  = (inl (ValueError ("Task with ID " +:+ Py.str task_id +:+ " does not exist")), st).
Proof.
  intros Hid H Hk. unfold update_task, storage_load, mbind, M_bind.
  by rewrite Hid, H, Hk.
Qed.

Lemma update_task_known task task_id (st : S) tasks :
  id task = Some task_id → load st = inr tasks → is_Some (tasks !! task_id) →
  update_task task st = (inr task, save (<[task_id := task]> tasks) st).
Proof.
  intros Hid H [old Hk].
  unfold update_task, storage_load, storage_save, mbind, M_bind.
  by rewrite Hid, H, Hk.
Qed.

Lemma update_task_load_error task task_id (st : S) e :
  id task = Some task_id → load st = inl e → update_task task st = (inl e, st).
Proof.
  intros Hid H. unfold update_task, storage_load, mbind, M_bind.
  by rewrite Hid, H.
Qed.

Lemma delete_task_unknown task_id (st : S) tasks :
  load st = inr tasks → tasks !! task_id = None →
  delete_task task_id st = (inr false, st).
Proof.
  intros H Hk. unfold delete_task, storage_load, mbind, M_bind.
  by rewrite H, Hk.
Qed.

Lemma delete_task_known task_id (st : S) tasks :
  load st = inr tasks → is_Some (tasks !! task_id) →
  delete_task task_id st = (inr true, save (base.delete task_id tasks) st).
Proof.
  intros H [old Hk].
  unfold delete_task, storage_load, storage_save, mbind, M_bind.
  by rewrite H, Hk.
Qed.

Lemma mark_done_unknown task_id (st : S) tasks :
  load st = inr tasks → tasks !! task_id = None →
  mark_done task_id st = (inr None, st).
Proof.
  intros H Hk. unfold mark_done, mbind at 1, M_bind at 1.
  by rewrite (get_task_run _ _ _ H), Hk.
Qed.

Lemma mark_done_known task_id (st : S) tasks task :
  load st = inr tasks → tasks !! task_id = Some task →
  mark_done task_id st
  = match update_task (set_status DONE task) st with
    | (inl e, st') => (inl e, st')
    | (inr t, st') => (inr (Some t), st')
    end.
Proof.
  intros H Hk. unfold mark_done, mbind, M_bind.
  by rewrite (get_task_run _ _ _ H), Hk.
Qed.

End repository_calls.

(** ** [max(tasks.keys(), default=0)] *)

Section max_keys.

Lemma foldl_max_init xs x : x ≤ foldl Z.max x xs.
Proof.
  revert x. induction xs as [|z xs IH]; intros x; cbn [foldl]; [lia|].
  specialize (IH (Z.max x z)). lia.
Qed.

Lemma foldl_max_ge xs x y : y ∈ x :: xs → y ≤ foldl Z.max x xs.
Proof.
  revert x. induction xs as [|z xs IH]; intros x Hy; cbn [foldl].
  - apply list_elem_of_singleton in Hy. lia.
  - pose proof (foldl_max_init xs (Z.max x z)) as Hinit.
    apply elem_of_cons in Hy as [Hy|Hy]; [lia|].
    apply elem_of_cons in Hy as [Hy|Hy]; [lia|].
    apply IH. by right.
Qed.

Lemma foldl_max_elem xs x : foldl Z.max x xs ∈ x :: xs.
Proof.
  revert x. induction xs as [|z xs IH]; intros x; cbn [foldl]; [left|].
  specialize (IH (Z.max x z)). apply elem_of_cons in IH as [Heq|Hin].
  - rewrite Heq. destruct (Z.max_spec x z) as [[_ ->]|[_ ->]]; [right|]; left.
  - by do 2 right.
Qed.

Lemma elem_of_keys (tasks : gmap Z Task) k : k ∈ keys tasks ↔ is_Some (tasks !! k).
Proof.
  unfold keys. rewrite list_elem_of_fmap. split.
  - intros [[k' t] [-> Hkt]]. apply elem_of_map_to_list in Hkt. by exists t.
  - intros [t Ht]. exists (k, t). split; [done|]. by apply elem_of_map_to_list.
Qed.

Lemma keys_empty (tasks : gmap Z Task) : keys tasks = [] ↔ tasks = ∅.
Proof.
  unfold keys. split.
  - intros H. apply fmap_nil_inv in H. by apply map_to_list_empty_iff.
  - intros ->. by rewrite map_to_list_empty.
Qed.

(** The next id is above every key, is [1] on the empty collection and
    follows a key of the collection otherwise. *)
Lemma next_id_spec (tasks : gmap Z Task) :
  let n := Py.max_default (keys tasks) 0 + 1 in
  (tasks = ∅ → n = 1)
  ∧ (∀ k, is_Some (tasks !! k) → k < n)
  ∧ (tasks ≠ ∅ → is_Some (tasks !! (n - 1))).
Proof.
  intros n. subst n. unfold Py.max_default.
  destruct (keys tasks) as [|x xs] eqn:Hkeys.
  - apply keys_empty in Hkeys. subst. split_and!; [done| |done].
    intros k [t Ht]. by rewrite lookup_empty in Ht.
  - split_and!.
    + intros ->. by rewrite (proj2 (keys_empty ∅)) in Hkeys.
    + intros k Hk. apply elem_of_keys in Hk. rewrite Hkeys in Hk.
      apply foldl_max_ge in Hk. lia.
    + intros _. apply elem_of_keys. rewrite Hkeys.
      replace (foldl Z.max x xs + 1 - 1) with (foldl Z.max x xs) by lia.
      apply foldl_max_elem.
Qed.

End max_keys.

(** ** Calls on the JSON file *)

Section file_calls.

(** What a call leaves in the file: either the file is untouched, or the
    collection the call built from the loaded one has been saved. *)
Lemma perform_cases (c : call) (st : file) tasks :
  call_ok c → load st = inr tasks →
  perform c st = st
  ∨ ∃ tasks', perform c st = save tasks' st ∧ load (save tasks' st) = inr tasks'
    ∧ ((∃ title priority now,
          c = Create title priority now
          ∧ let n := Py.max_default (keys tasks) 0 + 1 in
            tasks' = <[n := {| id := Some n; title := title; priority := priority;
                               status := PENDING; created_at := now |}]> tasks)
       ∨ (∃ task i, c = Update task ∧ id task = Some i
            ∧ is_Some (tasks !! i) ∧ tasks' = <[i := task]> tasks)
       ∨ (∃ i, c = Delete i ∧ is_Some (tasks !! i) ∧ tasks' = base.delete i tasks)
       ∨ (∃ i j t, c = MarkDone i ∧ tasks !! i = Some t ∧ id t = Some j
            ∧ is_Some (tasks !! j) ∧ tasks' = <[j := set_status DONE t]> tasks)).
Proof.
  intros Hc H. pose proof (load_ok _ _ H) as Hok.
  destruct c as [title priority now|task|i|i]; cbn [perform call_ok] in *.
  - right. rewrite (create_task_run _ _ _ _ _ H). eexists. split; [done|].
    split; [|left; by eexists _, _, _].
    apply load_save. by apply map_Forall_insert_2.
  - destruct (id task) as [i|] eqn:Hid; [|left; by rewrite update_task_unset].
    destruct (tasks !! i) as [old|] eqn:Hi;
      [|left; by erewrite update_task_unknown].
    right. erewrite update_task_known by done. eexists. split; [done|].
    split; [|right; left; by eexists _, _].
    apply load_save. by apply map_Forall_insert_2.
  - destruct (tasks !! i) as [old|] eqn:Hi;
      [|left; by erewrite delete_task_unknown].
    right. erewrite delete_task_known by done. eexists. split; [done|].
    split; [|right; right; left; by eexists].
    apply load_save. by apply map_Forall_delete.
  - destruct (tasks !! i) as [t|] eqn:Hi;
      [|left; by erewrite mark_done_unknown].
    erewrite mark_done_known by done.
    destruct (id t) as [j|] eqn:Hid;
      [|left; by rewrite update_task_unset].
    destruct (tasks !! j) as [old|] eqn:Hj;
      [|left; by erewrite update_task_unknown].
    right. erewrite update_task_known by done. eexists. split; [done|].
    split; [|right; right; right; by eexists _, _, _].
    apply load_save. apply map_Forall_insert_2; [|done].
    by apply (Hok i t).
Qed.

Lemma perform_readable (c : call) (st : file) tasks :
  call_ok c → load st = inr tasks → ∃ tasks', load (perform c st) = inr tasks'.
Proof.
  intros Hc H. destruct (perform_cases c st tasks Hc H) as [->|(t' & -> & Hl & _)];
    eauto.
Qed.

Lemma run_readable (cs : list call) (st : file) tasks :
  Forall call_ok cs → load st = inr tasks → ∃ tasks', load (run cs st) = inr tasks'.
Proof.
  intros Hcs. revert st tasks.
  induction Hcs as [|c cs Hc _ IH]; intros st tasks H; simpl; [eauto|].
  destruct (perform_readable c st tasks Hc H) as [tasks' H']. eauto.
Qed.

End file_calls.

(** * The claims *)

(** ** C2: round trip through the file *)

(** C2. For every collection of tasks, [save] followed by [load] returns the
    collection that was saved: the same keys, and under every key a task
    with the same [id], [title], [status], [priority] and [created_at]
    (microseconds included).  The collection holds [datetime] values, that
    is, timestamps whose fields are in the ranges of [datetime]. *)
Theorem save_load_roundtrip (tasks : gmap Z Task) (f : file) :
  tasks_ok tasks →
  ∃ loaded,
    load (save tasks f) = inr loaded
    ∧ dom loaded = dom tasks
    ∧ ∀ k task, tasks !! k = Some task →
        ∃ task', loaded !! k = Some task'
          ∧ id task' = id task ∧ title task' = title task
          ∧ status task' = status task ∧ priority task' = priority task
          ∧ created_at task' = created_at task.
Proof.
  intros Hok. exists tasks. split; [by apply load_save|]. split; [done|].
  intros k task Hk. by exists task.
Qed.

Lemma save_load_roundtrip_witness :
  ∃ loaded,
    load (save {[ 1 := sample_task 1 "A" ]} (None : file)) = inr loaded
    ∧ dom loaded = dom ({[ 1 := sample_task 1 "A" ]} : gmap Z Task)
    ∧ ∀ k task, ({[ 1 := sample_task 1 "A" ]} : gmap Z Task) !! k = Some task →
        ∃ task', loaded !! k = Some task'
          ∧ id task' = id task ∧ title task' = title task
          ∧ status task' = status task ∧ priority task' = priority task
          ∧ created_at task' = created_at task.
Proof.
  apply (save_load_roundtrip {[ 1 := sample_task 1 "A" ]} None).
  apply map_Forall_singleton. reflexivity.
Defined.

(** ** C3: what [load] does with a missing, empty, malformed or incomplete file *)

Section load_failures.

Lemma load_task_missing fields field :
  field ∈ required_fields → dict_get fields field = None →
  ∃ e, load_task (JObject fields) = inl e.
Proof.
  intros Hfield Hmiss. unfold load_task, getitem.
  destruct (dict_get fields "id") as [raw_id|] eqn:Hid;
    cbn [mbind result_bind]; [|eauto].
  destruct (dict_get fields "title") as [raw_title|] eqn:Htitle;
    cbn [mbind result_bind]; [|eauto].
  destruct (dict_get fields "status") as [v1|] eqn:Hstatus;
    cbn [mbind result_bind]; [|eauto].
  destruct (Status_call v1) as [|st]; cbn [mbind result_bind]; [eauto|].
  destruct (dict_get fields "priority") as [v2|] eqn:Hpriority;
    cbn [mbind result_bind]; [|eauto].
  destruct (Priority_call v2) as [|pr]; cbn [mbind result_bind]; [eauto|].
  destruct (dict_get fields "created_at") as [v3|] eqn:Hcreated;
    cbn [mbind result_bind]; [|eauto].
  exfalso. unfold required_fields in Hfield.
  repeat (apply elem_of_cons in Hfield as [->|Hfield]; [congruence|]).
  by apply elem_of_nil in Hfield.
Qed.

Lemma load_items_failure items tasks task_id_str task_data e :
  (task_id_str, task_data) ∈ items → load_task task_data = inl e →
  ∃ e', load_items items tasks = inl e'.
Proof.
  intros Hin Hfail. revert tasks.
  induction items as [|[s td] items IH]; intros tasks.
  - by apply elem_of_nil in Hin.
  - cbn [load_items]. apply elem_of_cons in Hin as [Heq|Hin].
    + simplify_eq. rewrite Hfail. cbn [mbind result_bind]. eauto.
    + destruct (load_task td) as [|t]; cbn [mbind result_bind]; [eauto|].
      destruct (int_call s) as [|k]; cbn [mbind result_bind]; [eauto|].
      by apply IH.
Qed.

End load_failures.

(** C3. [load] returns the empty collection when the file does not exist
    and when it is empty; it raises the [JSONDecodeError] of [json.loads]
    when the content is malformed; and it raises when a stored task object
    lacks one of the fields [id], [title], [status], [priority],
    [created_at]. *)
Theorem load_missing_empty_malformed_incomplete :
  load (None : file) = inr ∅
  ∧ load (Some Blank : file) = inr ∅
  ∧ load (Some Malformed : file) = inl JSONDecodeError
  ∧ ∀ items task_id_str fields field,
      (task_id_str, JObject fields) ∈ items →
      field ∈ required_fields → dict_get fields field = None →
      ∃ e, load (Some (Json (JObject items)) : file) = inl e.
Proof.
  split_and!; [done..|].
  intros items task_id_str fields field Hin Hfield Hmiss.
  destruct (load_task_missing fields field Hfield Hmiss) as [e He].
  cbn [load JsonStorage JsonStorage_load load_data].
  by eapply load_items_failure.
Qed.

Lemma load_missing_empty_malformed_incomplete_witness :
  ∃ e, load (Some (Json (JObject
         [("1", JObject [("id", JInt 1); ("title", JString "A");
                         ("status", JString "pending");
                         ("created_at", JString "2024-01-01T12:00:00")])])) : file)
       = inl e.
Proof.
  destruct load_missing_empty_malformed_incomplete as (_ & _ & _ & H).
  eapply (H _ "1" _ "priority").
  - apply list_elem_of_singleton. reflexivity.
  - unfold required_fields. do 3 right. left.
  - reflexivity.
Defined.

Example load_incomplete_example :
  load (Some (Json (JObject
         [("1", JObject [("id", JInt 1); ("title", JString "A");
                         ("status", JString "pending");
                         ("created_at", JString "2024-01-01T12:00:00")])])) : file)
  = inl (KeyError "priority").
Proof. reflexivity. Qed.

(** ** C4: [update_task] *)

(** C4, as stated, fails: the exception for an unset id and the exception
    for an unknown id are of one and the same class, [ValueError]. *)
Lemma update_task_errors_same_class :
  ∃ e_unset e_unknown,
    update_task unset_task (None : file) = (inl e_unset, None)
    ∧ update_task (sample_task 999 "unknown") (None : file) = (inl e_unknown, None)
    ∧ exn_class e_unset = exn_class e_unknown.
Proof. eexists _, _. split_and!; reflexivity. Qed.

(** C4, amended. [update_task] raises [ValueError("Task ID cannot be None")]
    when [task.id] is unset, before the file is read; it raises an exception
    of the same class, [ValueError("Task with ID <id> does not exist")],
    told apart by its message only, when [task.id] is set and absent from
    the loaded collection; otherwise it replaces the stored task by the
    given one, saves the collection and returns the task. *)
Theorem update_task_spec (task : Task) (st : file) :
  (id task = None →
     update_task task st = (inl (ValueError "Task ID cannot be None"), st))
  ∧ (∀ tasks task_id,
       id task = Some task_id → load st = inr tasks → tasks !! task_id = None →
       ∃ e, update_task task st = (inl e, st)
         ∧ e = ValueError ("Task with ID " +:+ Py.str task_id +:+ " does not exist")
         ∧ exn_class e = exn_class (ValueError "Task ID cannot be None")
         ∧ e ≠ ValueError "Task ID cannot be None")
  ∧ (∀ tasks task_id,
       id task = Some task_id → load st = inr tasks → is_Some (tasks !! task_id) →
       datetime_ok (created_at task) = true →
       ∃ st', update_task task st = (inr task, st')
         ∧ load st' = inr (<[task_id := task]> tasks)).
Proof.
  split_and!.
  - apply update_task_unset.
  - intros tasks task_id Hid H Hk. eexists. split; [by eapply update_task_unknown|].
    split_and!; [done..|]. intros [=].
  - intros tasks task_id Hid H Hk Hok. eexists.
    split; [by eapply update_task_known|].
    apply load_save. apply map_Forall_insert_2; [done|]. by eapply load_ok.
Qed.

Lemma update_task_spec_witness :
  ∃ st', update_task (set_status DONE (sample_task 1 "A"))
           (save {[ 1 := sample_task 1 "A" ]} (None : file))
         = (inr (set_status DONE (sample_task 1 "A")), st')
    ∧ load st' = inr (<[1 := set_status DONE (sample_task 1 "A")]>
                        {[ 1 := sample_task 1 "A" ]}).
Proof.
  destruct (update_task_spec (set_status DONE (sample_task 1 "A"))
              (save {[ 1 := sample_task 1 "A" ]} (None : file))) as (_ & _ & H).
  apply (H {[ 1 := sample_task 1 "A" ]} 1).
  - reflexivity.
  - vm_compute. reflexivity.
  - exists (sample_task 1 "A"). reflexivity.
  - reflexivity.
Defined.

(** ** C8: [delete_task] *)

(** C8. [delete_task] of an id that is not in the collection returns
    [False] and leaves the file as it is; of an id that is in the
    collection it returns [True] and saves the collection without that
    entry, every other entry unchanged. *)
Theorem delete_task_spec (task_id : Z) (st : file) (tasks : gmap Z Task) :
  load st = inr tasks →
  (tasks !! task_id = None → delete_task task_id st = (inr false, st))
  ∧ (is_Some (tasks !! task_id) →
       ∃ st' tasks',
         delete_task task_id st = (inr true, st')
         ∧ st' = save tasks' st
         ∧ load st' = inr tasks'
         ∧ tasks' !! task_id = None
         ∧ ∀ k, k ≠ task_id → tasks' !! k = tasks !! k).
Proof.
  intros H. split.
  - intros Hk. by eapply delete_task_unknown.
  - intros Hk. eexists _, (base.delete task_id tasks).
    split; [by eapply delete_task_known|]. split; [done|]. split_and!.
    + apply load_save. apply map_Forall_delete. by eapply load_ok.
    + apply lookup_delete_eq.
    + intros k Hne. by apply lookup_delete_ne.
Qed.

Lemma delete_task_spec_witness :
  delete_task 7 (save {[ 1 := sample_task 1 "A" ]} (None : file))
  = (inr false, save {[ 1 := sample_task 1 "A" ]} (None : file)).
Proof.
  apply (delete_task_spec 7 _ {[ 1 := sample_task 1 "A" ]}).
  - vm_compute. reflexivity.
  - reflexivity.
Defined.

(** ** C5: [mark_done] twice *)

Lemma set_status_idemp s task : set_status s (set_status s task) = set_status s task.
Proof. done. Qed.

(** C5. On a collection keyed by the ids of its tasks, [mark_done] of a
    present id returns the task with status [DONE]; a second [mark_done] of
    the same id returns without error, the same task, status [DONE] again,
    and leaves the file exactly as the first call left it.  [mark_done] of
    an absent id returns [None] without error and without writing. *)
Theorem mark_done_idempotent (task_id : Z) (st : file) (tasks : gmap Z Task) :
  load st = inr tasks → keyed_by_id tasks →
  (∀ task, tasks !! task_id = Some task →
     ∃ done1 st1,
       mark_done task_id st = (inr (Some done1), st1)
       ∧ status done1 = DONE
       ∧ load st1 = inr (<[task_id := done1]> tasks)
       ∧ ∃ done2 st2,
           mark_done task_id st1 = (inr (Some done2), st2)
           ∧ status done2 = DONE ∧ done2 = done1 ∧ st2 = st1)
  ∧ (tasks !! task_id = None → mark_done task_id st = (inr None, st)).
Proof.
  intros H Hkeyed. split; [|intros Hk; by eapply mark_done_unknown].
  intros task Hk. pose proof (Hkeyed _ _ Hk) as Hid.
  set (done1 := set_status DONE task).
  set (tasks1 := <[task_id := done1]> tasks).
  assert (load (save tasks1 st) = inr tasks1) as H1.
  { apply load_save. apply map_Forall_insert_2; [|by eapply load_ok].
    by apply (load_ok _ _ H task_id task). }
  exists done1, (save tasks1 st). split_and!; [|done|done|].
  - rewrite (mark_done_known _ _ _ _ H Hk). fold done1.
    by rewrite (update_task_known done1 task_id st tasks Hid H) by eauto.
  - exists done1, (save tasks1 st).
    assert (tasks1 !! task_id = Some done1) as Hk1 by apply lookup_insert_eq.
    rewrite (mark_done_known _ _ _ _ H1 Hk1).
    change (set_status DONE done1) with done1.
    rewrite (update_task_known done1 task_id _ tasks1 Hid H1) by eauto.
    subst tasks1. by rewrite insert_insert_eq.
Qed.

Lemma mark_done_idempotent_witness :
  mark_done 5 (save {[ 1 := sample_task 1 "A" ]} (None : file))
  = (inr None, save {[ 1 := sample_task 1 "A" ]} (None : file)).
Proof.
  apply (mark_done_idempotent 5 _ {[ 1 := sample_task 1 "A" ]}).
  - vm_compute. reflexivity.
  - intros k task Hk. apply lookup_singleton_Some in Hk as [<- <-]. reflexivity.
  - reflexivity.
Defined.

Example mark_done_twice_example :
  let st0 := save {[ 1 := sample_task 1 "A" ]} (None : file) in
  let '(r1, st1) := mark_done 1 st0 in
  let '(r2, st2) := mark_done 1 st1 in
  r1 = inr (Some (set_status DONE (sample_task 1 "A")))
  ∧ r2 = r1 ∧ st2 = st1.
Proof. vm_compute. done. Qed.

(** ** C9: every key is the id of its task *)

Section keyed_by_id.

Lemma keyed_by_id_insert (tasks : gmap Z Task) k task :
  id task = Some k → keyed_by_id tasks → keyed_by_id (<[k := task]> tasks).
Proof.
  intros Hid Hkeyed k' task' Hk'.
  destruct (decide (k = k')) as [<-|Hne].
  - rewrite lookup_insert_eq in Hk'. by simplify_eq.
  - rewrite lookup_insert_ne in Hk' by done. by apply Hkeyed.
Qed.

Lemma keyed_by_id_delete (tasks : gmap Z Task) k :
  keyed_by_id tasks → keyed_by_id (base.delete k tasks).
Proof.
  intros Hkeyed k' task' Hk'. apply lookup_delete_Some in Hk' as [_ Hk'].
  by apply Hkeyed.
Qed.

Lemma perform_keyed (c : call) (st : file) tasks :
  call_ok c → load st = inr tasks → keyed_by_id tasks →
  ∃ tasks', load (perform c st) = inr tasks' ∧ keyed_by_id tasks'.
Proof.
  intros Hc H Hkeyed.
  destruct (perform_cases c st tasks Hc H) as [->|(tasks' & -> & Hl & Hcase)];
    [eauto|].
  exists tasks'. split; [done|].
  destruct Hcase as [(title & priority & now & _ & ->)
                    |[(task & i & _ & Hid & _ & ->)
                    |[(i & _ & _ & ->)
                    |(i & j & t & _ & Hi & Hid & _ & ->)]]].
  - by apply keyed_by_id_insert.
  - by apply keyed_by_id_insert.
  - by apply keyed_by_id_delete.
  - by apply keyed_by_id_insert.
Qed.

End keyed_by_id.

(** C9. [create_task] stores the new task under the id it gave it,
    [update_task] (and [mark_done] through it) stores a task under its own
    [id], [delete_task] only removes an entry: in every state reached by
    calls of the repository from a collection keyed by id (the empty one
    in particular), each key is the [id] of the task stored under it. *)
Theorem keys_are_ids (cs : list call) (st : file) (tasks : gmap Z Task) :
  Forall call_ok cs → load st = inr tasks → keyed_by_id tasks →
  ∃ tasks', load (run cs st) = inr tasks' ∧ keyed_by_id tasks'.
Proof.
  intros Hcs. revert st tasks.
  induction Hcs as [|c cs Hc _ IH]; intros st tasks H Hkeyed; cbn [run]; [eauto|].
  destruct (perform_keyed c st tasks Hc H Hkeyed) as (tasks' & H' & Hkeyed').
  by eapply IH.
Qed.

Lemma keys_are_ids_witness :
  ∃ tasks',
    load (run [Create "A" MEDIUM sample_time; Create "B" HIGH sample_time;
               MarkDone 1; Update (sample_task 2 "B2"); Delete 1]
              (None : file)) = inr tasks'
    ∧ keyed_by_id tasks'.
Proof.
  apply (keys_are_ids _ None ∅).
  - repeat constructor.
  - reflexivity.
  - intros k task Hk. by rewrite lookup_empty in Hk.
Defined.

(** ** C1: the id that [create_task] assigns *)

(** C1. In every state of the file reached by calls of the repository,
    [create_task] gives the new task the id [max(keys) + 1]: it is [1] on
    the empty collection, otherwise it follows a key of the collection and
    is above every key.  Hence it differs from every id that was handed
    out earlier and deleted since, as long as a higher id is still in the
    collection.  In the scenario create, create, delete(1), create, the
    third task gets id 3. *)
Theorem create_task_next_id :
  (∀ (cs : list call) (st0 : file) (tasks0 : gmap Z Task) title priority now,
     Forall call_ok cs → load st0 = inr tasks0 →
     ∃ tasks task n,
       load (run cs st0) = inr tasks
       ∧ (create_task title priority now (run cs st0)).1 = inr task
       ∧ id task = Some n
       ∧ (tasks = ∅ → n = 1)
       ∧ (tasks ≠ ∅ → is_Some (tasks !! (n - 1)))
       ∧ (∀ k, is_Some (tasks !! k) → k < n)
       ∧ (∀ d h, d ∈ assigned_ids cs st0 → tasks !! d = None →
                 is_Some (tasks !! h) → d < h → n ≠ d))
  ∧ assigned_ids [Create "A" MEDIUM sample_time; Create "B" MEDIUM sample_time;
                   Delete 1; Create "C" MEDIUM sample_time] (None : file)
    = [1; 2; 3].
Proof.
  split; [|by vm_compute].
  intros cs st0 tasks0 title priority now Hcs H0.
  destruct (run_readable cs st0 tasks0 Hcs H0) as [tasks H].
  destruct (next_id_spec tasks) as (Hempty & Habove & Hfollows).
  eexists tasks, _, _. split; [done|].
  rewrite (create_task_run title priority now _ _ H). cbn [fst id].
  split_and!; [done..|].
  intros d h _ _ Hh Hlt Heq. apply Habove in Hh. lia.
Qed.

Lemma create_task_next_id_witness :
  ∃ tasks task n,
    load (run [Create "A" MEDIUM sample_time; Create "B" MEDIUM sample_time; Delete 1]
              (None : file)) = inr tasks
    ∧ (create_task "C" MEDIUM sample_time
         (run [Create "A" MEDIUM sample_time; Create "B" MEDIUM sample_time; Delete 1]
              (None : file))).1 = inr task
    ∧ id task = Some n
    ∧ (tasks = ∅ → n = 1)
    ∧ (tasks ≠ ∅ → is_Some (tasks !! (n - 1)))
    ∧ (∀ k, is_Some (tasks !! k) → k < n)
    ∧ (∀ d h,
         d ∈ assigned_ids
               [Create "A" MEDIUM sample_time; Create "B" MEDIUM sample_time; Delete 1]
               (None : file) →
         tasks !! d = None → is_Some (tasks !! h) → d < h → n ≠ d).
Proof.
  destruct create_task_next_id as [H _].
  apply (H [Create "A" MEDIUM sample_time; Create "B" MEDIUM sample_time; Delete 1]
           None ∅ "C" MEDIUM sample_time).
  - repeat constructor.
  - reflexivity.
Defined.

(** The id of the highest task is handed out again once that task is
    deleted: ids are only safe from reuse below a remaining id. *)
Example highest_id_reused :
  assigned_ids [Create "A" MEDIUM sample_time; Create "B" MEDIUM sample_time; Delete 2;
                Create "C" MEDIUM sample_time] (None : file) = [1; 2; 2].
Proof. vm_compute. reflexivity. Qed.

(** ** C6: [get_all_tasks] *)

Section get_all_tasks.

Lemma strictly_sorted (ks : list Z) :
  StronglySorted Z.le ks → NoDup ks → StronglySorted Z.lt ks.
Proof.
  induction 1 as [|k ks Hsorted IH Hall]; intros Hnd; constructor.
  - apply IH. by apply NoDup_cons in Hnd as [_ ?].
  - apply NoDup_cons in Hnd as [Hk _].
    apply Forall_forall. intros k' Hk'.
    assert (k ≤ k') by (by eapply Forall_forall in Hall).
    assert (k ≠ k') by (by intros ->). lia.
Qed.

Lemma sorted_keys (tasks : gmap Z Task) :
  StronglySorted Z.lt (merge_sort Z.le (keys tasks))
  ∧ ∀ k, k ∈ merge_sort Z.le (keys tasks) ↔ is_Some (tasks !! k).
Proof.
  pose proof (merge_sort_Permutation Z.le (keys tasks)) as Hperm.
  split.
  - apply strictly_sorted.
    + apply (StronglySorted_merge_sort Z.le).
    + rewrite Hperm. apply NoDup_fst_map_to_list.
  - intros k. rewrite Hperm. apply elem_of_keys.
Qed.

Lemma subscript_Some (tasks : gmap Z Task) k task :
  tasks !! k = Some task → subscript tasks k = inr task.
Proof. intros H. unfold subscript. by rewrite H. Qed.

Lemma mapM_subscript (tasks : gmap Z Task) (ks : list Z) :
  (∀ k, k ∈ ks → is_Some (tasks !! k)) →
  ∃ l, mapM (M := sum exn) (subscript tasks) ks = inr l
    ∧ Forall2 (λ k task, tasks !! k = Some task) ks l.
Proof.
  induction ks as [|k ks IH]; intros Hks.
  - exists []. by split.
  - destruct (Hks k) as [task Hk]; [left|].
    destruct IH as (l & Hl & Hall); [intros k' Hk'; apply Hks; by right|].
    exists (task :: l). split; [|by constructor].
    change (mapM (M := sum exn) (subscript tasks) (k :: ks))
      with (subscript tasks k ≫= λ y,
              mapM (M := sum exn) (subscript tasks) ks ≫= λ r, mret (y :: r)).
    rewrite (subscript_Some _ _ _ Hk), Hl. reflexivity.
Qed.

Lemma lookup_filter_status (tasks : gmap Z Task) (status : option Status) k task :
  match status with
  | Some s => filter (λ kt : Z * Task, models.status kt.2 = s) tasks
  | None => tasks
  end !! k = Some task
  ↔ tasks !! k = Some task ∧ matches status task.
Proof.
  destruct status as [s|]; cbn [matches].
  - by rewrite map_lookup_filter_Some.
  - split; [done|]. by intros [? _].
Qed.

Lemma ids_of_keyed (tasks : gmap Z Task) ks l :
  keyed_by_id tasks → Forall2 (λ k task, tasks !! k = Some task) ks l →
  id <$> l = Some <$> ks.
Proof.
  intros Hkeyed Hall. induction Hall as [|k task ks l Hk _ IH]; [done|].
  cbn [fmap list_fmap]. f_equal; [by eapply Hkeyed|done].
Qed.

Lemma get_all_tasks_run {S : Type} `{!Storage S}
    (status : option Status) (st : S) tasks :
  load st = inr tasks →
  ∃ ks l,
    get_all_tasks status st = (inr l, st)
    ∧ StronglySorted Z.lt ks
    ∧ (∀ k, k ∈ ks ↔ ∃ task, tasks !! k = Some task ∧ matches status task)
    ∧ Forall2 (λ k task, tasks !! k = Some task) ks l.
Proof.
  intros H.
  set (selected := match status with
                   | Some s => filter (λ kt : Z * Task, models.status kt.2 = s) tasks
                   | None => tasks
                   end).
  destruct (sorted_keys selected) as [Hsorted Hmem].
  destruct (mapM_subscript selected (merge_sort Z.le (keys selected)))
    as (l & Hl & Hall); [intros k; apply Hmem|].
  exists (merge_sort Z.le (keys selected)), l. split_and!.
  - unfold get_all_tasks, storage_load, mbind, M_bind, pure. rewrite H.
    fold selected. by rewrite Hl.
  - done.
  - intros k. rewrite Hmem. split.
    + intros [task Hk]. exists task. by apply lookup_filter_status.
    + intros (task & Hk). exists task. by apply lookup_filter_status.
  - eapply Forall2_impl; [done|]. intros k task Hk.
    by apply lookup_filter_status in Hk as [? _].
Qed.

End get_all_tasks.

(** C6. For every collection in the file and every optional status filter,
    [get_all_tasks] returns, without raising, the tasks stored under the
    keys [ks], where [ks] lists in strictly ascending order exactly the
    keys whose task matches the filter (every key when there is no filter);
    on a collection keyed by id, the ids of the returned tasks are [ks],
    hence strictly ascending.  The result is the empty list, not an
    error, when nothing matches. *)
Theorem get_all_tasks_spec (status : option Status) (st : file) (tasks : gmap Z Task) :
  load st = inr tasks →
  ∃ ks l,
    get_all_tasks status st = (inr l, st)
    ∧ StronglySorted Z.lt ks
    ∧ (∀ k, k ∈ ks ↔ ∃ task, tasks !! k = Some task ∧ matches status task)
    ∧ Forall2 (λ k task, tasks !! k = Some task) ks l
    ∧ (keyed_by_id tasks → id <$> l = Some <$> ks)
    ∧ ((∀ k task, tasks !! k = Some task → ¬ matches status task) → l = []).
Proof.
  intros H. destruct (get_all_tasks_run status st tasks H)
    as (ks & l & Hrun & Hsorted & Hmem & Hall).
  exists ks, l. split_and!; [done..| |].
  - intros Hkeyed. by eapply ids_of_keyed.
  - intros Hnone. destruct Hall as [|k task ks l Hk _]; [done|].
    destruct (proj1 (Hmem k)) as (task' & Hk' & Hmatch); [left|].
    by destruct (Hnone k task' Hk').
Qed.

Lemma get_all_tasks_spec_witness :
  ∃ ks l,
    get_all_tasks (Some DONE) (save {[ 1 := sample_task 1 "A" ]} (None : file))
    = (inr l, save {[ 1 := sample_task 1 "A" ]} (None : file))
    ∧ StronglySorted Z.lt ks
    ∧ (∀ k, k ∈ ks ↔ ∃ task, ({[ 1 := sample_task 1 "A" ]} : gmap Z Task) !! k = Some task
                              ∧ matches (Some DONE) task)
    ∧ Forall2 (λ k task, ({[ 1 := sample_task 1 "A" ]} : gmap Z Task) !! k = Some task) ks l
    ∧ (keyed_by_id {[ 1 := sample_task 1 "A" ]} → id <$> l = Some <$> ks)
    ∧ ((∀ k task, ({[ 1 := sample_task 1 "A" ]} : gmap Z Task) !! k = Some task
                  → ¬ matches (Some DONE) task) → l = []).
Proof.
  apply (get_all_tasks_spec (Some DONE) _ {[ 1 := sample_task 1 "A" ]}).
  vm_compute. reflexivity.
Defined.

(** Tasks created as "C", "A", "B" are listed by id, not by title. *)
Example get_all_tasks_by_id :
  let st := run [Create "C" MEDIUM sample_time; Create "A" MEDIUM sample_time;
                 Create "B" MEDIUM sample_time] (None : file) in
  (map (λ task, (id task, title task))) <$> (get_all_tasks None st).1
  = inr [(Some 1, "C"); (Some 2, "A"); (Some 3, "B")].
Proof. vm_compute. reflexivity. Qed.

(** ** C7: pending and done tasks partition the list of all tasks *)

Section partition.

Lemma elem_of_subscripts (tasks : gmap Z Task) ks l task :
  Forall2 (λ k t, tasks !! k = Some t) ks l →
  task ∈ l ↔ ∃ k, k ∈ ks ∧ tasks !! k = Some task.
Proof.
  induction 1 as [|k t ks l Hk _ IH].
  - split; [by intros ?%elem_of_nil|]. by intros (k & ?%elem_of_nil & _).
  - rewrite elem_of_cons, IH. split.
    + intros [->|(k' & Hk' & Hlook)].
      * exists k. split; [left|done].
      * exists k'. split; [by right|done].
    + intros (k' & [->|Hk']%elem_of_cons & Hlook).
      * left. congruence.
      * right. by exists k'.
Qed.

Lemma get_all_tasks_elem {S : Type} `{!Storage S}
    (status : option Status) (st : S) tasks :
  load st = inr tasks →
  ∃ l, get_all_tasks status st = (inr l, st)
    ∧ ∀ task, task ∈ l ↔ ∃ k, tasks !! k = Some task ∧ matches status task.
Proof.
  intros H. destruct (get_all_tasks_run status st tasks H)
    as (ks & l & Hrun & _ & Hmem & Hall).
  exists l. split; [done|]. intros task.
  rewrite (elem_of_subscripts tasks ks l task Hall). split.
  - intros (k & Hk & Hlook). exists k. split; [done|].
    apply Hmem in Hk as (task' & Hlook' & Hmatch). congruence.
  - intros (k & Hlook & Hmatch). exists k. split; [|done].
    apply Hmem. by exists task.
Qed.

End partition.

(** C7. In every state of the file reached by calls of the repository
    ([create_task] and [mark_done] among them), the tasks that
    [get_all_tasks(PENDING)] returns and those that [get_all_tasks(DONE)]
    returns have no task in common, and together they are the tasks that
    [get_all_tasks()] returns. *)
Theorem pending_done_partition (cs : list call) (st0 : file) (tasks0 : gmap Z Task) :
  Forall call_ok cs → load st0 = inr tasks0 →
  ∃ pending finished all,
    get_all_tasks (Some PENDING) (run cs st0) = (inr pending, run cs st0)
    ∧ get_all_tasks (Some DONE) (run cs st0) = (inr finished, run cs st0)
    ∧ get_all_tasks None (run cs st0) = (inr all, run cs st0)
    ∧ (∀ task, task ∈ all ↔ task ∈ pending ∨ task ∈ finished)
    ∧ (∀ task, ¬ (task ∈ pending ∧ task ∈ finished)).
Proof.
  intros Hcs H0. destruct (run_readable cs st0 tasks0 Hcs H0) as [tasks H].
  destruct (get_all_tasks_elem (Some PENDING) _ _ H) as (pending & Hp & Hpm).
  destruct (get_all_tasks_elem (Some DONE) _ _ H) as (finished & Hd & Hdm).
  destruct (get_all_tasks_elem None _ _ H) as (all & Ha & Ham).
  exists pending, finished, all. split_and!; [done..| |].
  - intros task. rewrite Ham, Hpm, Hdm. cbn [matches]. split.
    + intros (k & Hk & _). destruct (status task) eqn:Hs; [left|right]; eauto.
    + intros [(k & Hk & _)|(k & Hk & _)]; eauto.
  - intros task. rewrite Hpm, Hdm. cbn [matches].
    intros [(_ & _ & Hs1) (_ & _ & Hs2)]. congruence.
Qed.

Lemma pending_done_partition_witness :
  ∃ pending finished all,
    get_all_tasks (Some PENDING)
      (run [Create "A" MEDIUM sample_time; Create "B" HIGH sample_time; MarkDone 1]
           (None : file))
    = (inr pending,
       run [Create "A" MEDIUM sample_time; Create "B" HIGH sample_time; MarkDone 1]
           (None : file))
    ∧ get_all_tasks (Some DONE)
        (run [Create "A" MEDIUM sample_time; Create "B" HIGH sample_time; MarkDone 1]
             (None : file))
      = (inr finished,
         run [Create "A" MEDIUM sample_time; Create "B" HIGH sample_time; MarkDone 1]
             (None : file))
    ∧ get_all_tasks None
        (run [Create "A" MEDIUM sample_time; Create "B" HIGH sample_time; MarkDone 1]
             (None : file))
      = (inr all,
         run [Create "A" MEDIUM sample_time; Create "B" HIGH sample_time; MarkDone 1]
             (None : file))
    ∧ (∀ task, task ∈ all ↔ task ∈ pending ∨ task ∈ finished)
    ∧ (∀ task, ¬ (task ∈ pending ∧ task ∈ finished)).
Proof.
  apply (pending_done_partition
           [Create "A" MEDIUM sample_time; Create "B" HIGH sample_time; MarkDone 1]
           None ∅).
  - repeat constructor.
  - reflexivity.
Defined.

(** ** C10: a reader against a writer *)

Section reader_against_writer.
Import locking.

(** The locks do exclude: a reader cannot take [LOCK_SH] while the writer
    holds [LOCK_EX], and the writer cannot take [LOCK_EX] while the reader
    holds [LOCK_SH]. *)
Lemma locks_exclude tasks (s : system) :
  (exclusive s = true → reader s = R_lock → step tasks Reader s = None)
  ∧ (shared s = true → writer s = W_lock → step tasks Writer s = None).
Proof.
  split; intros Hheld Hpc; cbn [step]; unfold step_reader, step_writer;
    by rewrite Hpc, Hheld.
Qed.

End reader_against_writer.

(** C10 does not hold of the code: [save] opens the file with mode ['w'],
    which truncates it, before it asks for the exclusive lock.  A reader
    that already holds the shared lock then reads an empty file and [load]
    returns the empty collection, which is neither the collection that was
    in the file nor the one being saved. *)
Theorem load_observes_truncated_file :
  ∃ schedule s,
    load (locking.disk (locking.initial (save old_tasks (None : file)))) = inr old_tasks
    ∧ locking.exec new_tasks schedule (locking.initial (save old_tasks (None : file)))
      = Some s
    ∧ locking.reader s = locking.R_done (inr ∅)
    ∧ locking.writer s = locking.W_lock
    ∧ (∅ : gmap Z Task) ≠ old_tasks ∧ (∅ : gmap Z Task) ≠ new_tasks.
Proof.
  exists [locking.Reader; locking.Reader; locking.Writer; locking.Reader; locking.Reader].
  eexists. split_and!.
  - vm_compute. reflexivity.
  - vm_compute. reflexivity.
  - reflexivity.
  - reflexivity.
  - intros Heq. apply (f_equal (λ m : gmap Z Task, m !! 1)) in Heq. done.
  - intros Heq. apply (f_equal (λ m : gmap Z Task, m !! 1)) in Heq. done.
Qed.

(** * Further properties of the code *)

(** ** [create_task] *)

Section create_more.

Lemma next_id_of_range (tasks : gmap Z Task) (k : Z) :
  0 ≤ k → (∀ j, is_Some (tasks !! j) ↔ 1 ≤ j ≤ k) →
  Py.max_default (keys tasks) 0 + 1 = k + 1.
Proof.
  intros Hk Hdom. destruct (next_id_spec tasks) as (Hempty & Habove & Hfollows).
  destruct (decide (tasks = ∅)) as [->|Hne].
  - rewrite Hempty by done. destruct (decide (k = 0)) as [->|]; [done|].
    assert (is_Some ((∅ : gmap Z Task) !! 1)) as [t Ht] by (apply Hdom; lia).
    by rewrite lookup_empty in Ht.
  - apply Hfollows, Hdom in Hne.
    assert (is_Some (tasks !! k)) as Hlast by (apply Hdom; lia).
    apply Habove in Hlast. lia.
Qed.

Lemma creates_from_range (cs : list call) (st : file) (tasks : gmap Z Task) (k : Z) :
  Forall is_create cs → Forall call_ok cs →
  load st = inr tasks → 0 ≤ k → (∀ j, is_Some (tasks !! j) ↔ 1 ≤ j ≤ k) →
  assigned_ids cs st = seqZ (k + 1) (Z.of_nat (length cs)).
Proof.
  intros Hcreate. revert st tasks k.
  induction Hcreate as [|c cs Hc _ IH]; intros st tasks k Hok H Hk Hdom; [done|].
  apply Forall_cons in Hok as [Hcok Hok].
  destruct c as [title priority now| | |]; try done.
  cbn [assigned_ids assigned perform length].
  rewrite (create_task_run title priority now st tasks H). cbn [fst snd id option_list].
  rewrite (next_id_of_range tasks k Hk Hdom).
  rewrite seqZ_cons by lia.
  replace (Z.pred (Z.of_nat (S (length cs)))) with (Z.of_nat (length cs)) by lia.
  cbn [app]. f_equal.
  replace (Z.succ (k + 1)) with ((k + 1) + 1) by lia.
  eapply IH; [done| |lia|].
  - apply load_save. apply map_Forall_insert_2; [done|]. by eapply load_ok.
  - intros j. destruct (decide (j = k + 1)) as [->|Hne].
    + rewrite lookup_insert_eq. split; [lia|eauto].
    + rewrite lookup_insert_ne by done. rewrite Hdom. lia.
Qed.

End create_more.

(** X1. Creates alone, on a file that does not exist yet, hand out the ids
    1, 2, ..., N in call order. *)
Theorem creates_assign_consecutive_ids (cs : list call) :
  Forall is_create cs → Forall call_ok cs →
  assigned_ids cs (None : file) = seqZ 1 (Z.of_nat (length cs)).
Proof.
  intros Hcreate Hok.
  apply (creates_from_range cs None ∅ 0 Hcreate Hok); [done|done|].
  intros j. rewrite lookup_empty. split; [by intros [??]|lia].
Qed.

Lemma creates_assign_consecutive_ids_witness :
  assigned_ids [Create "A" LOW sample_time; Create "B" HIGH sample_time;
                Create "C" MEDIUM sample_time] (None : file)
  = seqZ 1 (Z.of_nat (length [Create "A" LOW sample_time; Create "B" HIGH sample_time;
                              Create "C" MEDIUM sample_time])).
Proof.
  apply creates_assign_consecutive_ids; repeat constructor.
Defined.

(** X2. [create_task] adds exactly one entry: the id it assigns was not a
    key of the collection, the new task (status [PENDING], the given title,
    priority and time) is what [get_task] of that id returns afterwards,
    and [get_task] of every id that was in the collection returns the task
    it returned before. *)
Theorem create_task_adds_one (title : string) (priority : Priority) (now : datetime)
    (st : file) (tasks : gmap Z Task) :
  datetime_ok now = true → load st = inr tasks →
  ∃ n st',
    create_task title priority now st
    = (inr {| id := Some n; title := title; status := PENDING;
              priority := priority; created_at := now |}, st')
    ∧ tasks !! n = None
    ∧ get_task n st'
      = (inr (Some {| id := Some n; title := title; status := PENDING;
                      priority := priority; created_at := now |}), st')
    ∧ (∀ j task, tasks !! j = Some task → get_task j st' = (inr (Some task), st'))
    ∧ ∀ tasks', load st' = inr tasks' → size tasks' = S (size tasks).
Proof.
  intros Hnow H. destruct (next_id_spec tasks) as (_ & Habove & _).
  set (n := Py.max_default (keys tasks) 0 + 1) in *.
  assert (tasks !! n = None) as Hfresh.
  { destruct (tasks !! n) eqn:Hn; [|done].
    assert (n < n) by (apply Habove; eauto). lia. }
  set (task := {| id := Some n; title := title; status := PENDING;
                  priority := priority; created_at := now |}).
  assert (load (save (<[n := task]> tasks) st) = inr (<[n := task]> tasks)) as H'.
  { apply load_save. apply map_Forall_insert_2; [done|]. by eapply load_ok. }
  exists n, (save (<[n := task]> tasks) st). split_and!.
  - by rewrite (create_task_run title priority now st tasks H).
  - done.
  - rewrite (get_task_run n _ _ H'). by rewrite lookup_insert_eq.
  - intros j t Hj. rewrite (get_task_run j _ _ H').
    rewrite lookup_insert_ne; [by rewrite Hj|]. intros <-. congruence.
  - intros tasks' Hl. rewrite H' in Hl. simplify_eq.
    by apply map_size_insert_None.
Qed.

Lemma create_task_adds_one_witness :
  ∃ n st',
    create_task "B" HIGH sample_time (save old_tasks (None : file))
    = (inr {| id := Some n; title := "B"; status := PENDING;
              priority := HIGH; created_at := sample_time |}, st')
    ∧ old_tasks !! n = None
    ∧ get_task n st'
      = (inr (Some {| id := Some n; title := "B"; status := PENDING;
                      priority := HIGH; created_at := sample_time |}), st')
    ∧ (∀ j task, old_tasks !! j = Some task → get_task j st' = (inr (Some task), st'))
    ∧ ∀ tasks', load st' = inr tasks' → size tasks' = S (size old_tasks).
Proof.
  apply (create_task_adds_one "B" HIGH sample_time _ old_tasks).
  - reflexivity.
  - vm_compute. reflexivity.
Defined.

(** ** A file that [load] cannot read *)

(** X3. When [load] raises, every operation of the repository that reads
    the file raises the same exception and leaves the file as it is:
    nothing is written over content that could not be read. *)
Theorem unreadable_file_untouched {S : Type} `{!Storage S} (st : S) (e : exn) :
  load st = inl e →
  (∀ title priority now, create_task title priority now st = (inl e, st))
  ∧ (∀ status, get_all_tasks status st = (inl e, st))
  ∧ (∀ task_id, get_task task_id st = (inl e, st))
  ∧ (∀ task task_id, id task = Some task_id → update_task task st = (inl e, st))
  ∧ (∀ task_id, delete_task task_id st = (inl e, st))
  ∧ (∀ task_id, mark_done task_id st = (inl e, st)).
Proof.
  intros H. split_and!.
  - intros. unfold create_task, storage_load, mbind, M_bind. by rewrite H.
  - intros. unfold get_all_tasks, storage_load, mbind, M_bind. by rewrite H.
  - intros. unfold get_task, storage_load, mbind, M_bind. by rewrite H.
  - intros task task_id Hid. by eapply update_task_load_error.
  - intros. unfold delete_task, storage_load, mbind, M_bind. by rewrite H.
  - intros. unfold mark_done, get_task, storage_load, mbind, M_bind. by rewrite H.
Qed.

Lemma unreadable_file_untouched_witness :
  (∀ title priority now,
     create_task title priority now (Some Malformed : file)
     = (inl JSONDecodeError, Some Malformed))
  ∧ (∀ status, get_all_tasks status (Some Malformed : file)
               = (inl JSONDecodeError, Some Malformed))
  ∧ (∀ task_id, get_task task_id (Some Malformed : file)
                = (inl JSONDecodeError, Some Malformed))
  ∧ (∀ task task_id, id task = Some task_id →
       update_task task (Some Malformed : file) = (inl JSONDecodeError, Some Malformed))
  ∧ (∀ task_id, delete_task task_id (Some Malformed : file)
                = (inl JSONDecodeError, Some Malformed))
  ∧ (∀ task_id, mark_done task_id (Some Malformed : file)
                = (inl JSONDecodeError, Some Malformed)).
Proof.
  apply (unreadable_file_untouched (Some Malformed : file) JSONDecodeError).
  reflexivity.
Defined.

(** ** [mark_done] *)

(** X4. On a collection keyed by id, [mark_done] of a present id changes
    the status of that one task and nothing else: the saved task has the
    title, priority, id and creation time it had, and every other entry
    of the collection is as it was. *)
Theorem mark_done_changes_status_only (task_id : Z) (st : file)
    (tasks : gmap Z Task) (task : Task) :
  load st = inr tasks → keyed_by_id tasks → tasks !! task_id = Some task →
  ∃ task' st' tasks',
    mark_done task_id st = (inr (Some task'), st')
    ∧ load st' = inr tasks'
    ∧ tasks' !! task_id = Some task'
    ∧ status task' = DONE
    ∧ title task' = title task ∧ priority task' = priority task
    ∧ id task' = id task ∧ created_at task' = created_at task
    ∧ ∀ k, k ≠ task_id → tasks' !! k = tasks !! k.
Proof.
  intros H Hkeyed Hk. pose proof (Hkeyed _ _ Hk) as Hid.
  exists (set_status DONE task), (save (<[task_id := set_status DONE task]> tasks) st),
         (<[task_id := set_status DONE task]> tasks).
  split_and!; try done.
  - rewrite (mark_done_known _ _ _ _ H Hk).
    by rewrite (update_task_known (set_status DONE task) task_id st tasks Hid H)
      by eauto.
  - apply load_save. apply map_Forall_insert_2; [|by eapply load_ok].
    by apply (load_ok _ _ H task_id task).
  - apply lookup_insert_eq.
  - intros k Hne. by apply lookup_insert_ne.
Qed.

Lemma mark_done_changes_status_only_witness :
  ∃ task' st' tasks',
    mark_done 2 (save new_tasks (None : file)) = (inr (Some task'), st')
    ∧ load st' = inr tasks'
    ∧ tasks' !! 2 = Some task'
    ∧ status task' = DONE
    ∧ title task' = title (sample_task 2 "B")
    ∧ priority task' = priority (sample_task 2 "B")
    ∧ id task' = id (sample_task 2 "B")
    ∧ created_at task' = created_at (sample_task 2 "B")
    ∧ ∀ k, k ≠ 2 → tasks' !! k = new_tasks !! k.
Proof.
  apply (mark_done_changes_status_only 2 _ new_tasks (sample_task 2 "B")).
  - vm_compute. reflexivity.
  - intros k task Hk. unfold new_tasks in Hk.
    apply lookup_insert_Some in Hk as [[<- <-]|[_ Hk]]; [done|].
    apply lookup_singleton_Some in Hk as [<- <-]. done.
  - reflexivity.
Defined.

(** X5. [mark_done] looks the task up by key but saves it through
    [update_task], which goes by the [id] stored in the task.  When that
    [id] is unset, or is not a key of the collection, [mark_done] raises
    the [ValueError] of [update_task] and writes nothing. *)
Theorem mark_done_stored_id_unusable (task_id : Z) (st : file)
    (tasks : gmap Z Task) (task : Task) :
  load st = inr tasks → tasks !! task_id = Some task →
  (id task = None →
     mark_done task_id st = (inl (ValueError "Task ID cannot be None"), st))
  ∧ (∀ j, id task = Some j → tasks !! j = None →
       mark_done task_id st
       = (inl (ValueError ("Task with ID " +:+ Py.str j +:+ " does not exist")), st)).
Proof.
  intros H Hk. split.
  - intros Hid. rewrite (mark_done_known _ _ _ _ H Hk).
    by rewrite (update_task_unset (set_status DONE task) st Hid).
  - intros j Hid Hj. rewrite (mark_done_known _ _ _ _ H Hk).
    by rewrite (update_task_unknown (set_status DONE task) j st tasks Hid H Hj).
Qed.

Lemma mark_done_stored_id_unusable_witness :
  mark_done 1 (save {[ 1 := unset_task ]} (None : file))
  = (inl (ValueError "Task ID cannot be None"), save {[ 1 := unset_task ]} (None : file)).
Proof.
  apply (mark_done_stored_id_unusable 1 _ {[ 1 := unset_task ]} unset_task).
  - vm_compute. reflexivity.
  - reflexivity.
  - reflexivity.
Defined.

(** X6. When the task stored under key [k] carries the [id] of another
    key [j] of the collection, [mark_done k] returns without error, but it
    is the entry under [j] that is replaced (by the task of [k], marked
    done); the entry under [k] keeps the status it had. *)
Theorem mark_done_follows_stored_id (k j : Z) (st : file)
    (tasks : gmap Z Task) (task : Task) :
  load st = inr tasks → tasks !! k = Some task →
  id task = Some j → j ≠ k → is_Some (tasks !! j) →
  ∃ st' tasks',
    mark_done k st = (inr (Some (set_status DONE task)), st')
    ∧ load st' = inr tasks'
    ∧ tasks' !! j = Some (set_status DONE task)
    ∧ tasks' !! k = Some task.
Proof.
  intros H Hk Hid Hne Hj.
  exists (save (<[j := set_status DONE task]> tasks) st),
         (<[j := set_status DONE task]> tasks).
  split_and!.
  - rewrite (mark_done_known _ _ _ _ H Hk).
    by rewrite (update_task_known (set_status DONE task) j st tasks Hid H Hj).
  - apply load_save. apply map_Forall_insert_2; [|by eapply load_ok].
    by apply (load_ok _ _ H k task).
  - apply lookup_insert_eq.
  - by rewrite lookup_insert_ne.
Qed.

Lemma mark_done_follows_stored_id_witness :
  ∃ st' tasks',
    mark_done 1 (save {[ 1 := sample_task 2 "A"; 2 := sample_task 2 "B" ]} (None : file))
    = (inr (Some (set_status DONE (sample_task 2 "A"))), st')
    ∧ load st' = inr tasks'
    ∧ tasks' !! 2 = Some (set_status DONE (sample_task 2 "A"))
    ∧ tasks' !! 1 = Some (sample_task 2 "A").
Proof.
  apply (mark_done_follows_stored_id 1 2 _
           {[ 1 := sample_task 2 "A"; 2 := sample_task 2 "B" ]}).
  - vm_compute. reflexivity.
  - reflexivity.
  - reflexivity.
  - done.
  - exists (sample_task 2 "B"). reflexivity.
Defined.

(** ** [get_all_tasks]: how many tasks *)

Section counting.

Lemma strongly_sorted_NoDup (ks : list Z) : StronglySorted Z.lt ks → NoDup ks.
Proof.
  induction 1 as [|k ks _ IH Hall]; constructor; [|done].
  intros Hk. eapply Forall_forall in Hall; [|done]. lia.
Qed.

Lemma length_keys (tasks : gmap Z Task) : length (keys tasks) = size tasks.
Proof. unfold keys. by rewrite length_fmap, length_map_to_list. Qed.

End counting.

(** X7. [get_all_tasks()] returns as many tasks as the collection has
    entries, and the numbers of tasks returned for [PENDING] and for
    [DONE] add up to that. *)
Theorem get_all_tasks_counts (st : file) (tasks : gmap Z Task) :
  load st = inr tasks →
  ∃ pending finished all,
    get_all_tasks (Some PENDING) st = (inr pending, st)
    ∧ get_all_tasks (Some DONE) st = (inr finished, st)
    ∧ get_all_tasks None st = (inr all, st)
    ∧ length all = size tasks
    ∧ (length pending + length finished = length all)%nat.
Proof.
  intros H.
  destruct (get_all_tasks_run (Some PENDING) st tasks H)
    as (kp & pending & Hp & Hsp & Hmp & Hfp).
  destruct (get_all_tasks_run (Some DONE) st tasks H)
    as (kd & finished & Hd & Hsd & Hmd & Hfd).
  destruct (get_all_tasks_run None st tasks H) as (ka & all & Ha & Hsa & Hma & Hfa).
  exists pending, finished, all. split_and!; [done..| |].
  - rewrite <- (Forall2_length _ _ _ Hfa), <- length_keys.
    apply Permutation_length, NoDup_Permutation.
    + by apply strongly_sorted_NoDup.
    + apply NoDup_fst_map_to_list.
    + intros k. rewrite Hma, elem_of_keys. cbn [matches]. split.
      * intros (t & Hk & _). by exists t.
      * intros [t Hk]. by exists t.
  - rewrite <- (Forall2_length _ _ _ Hfa), <- (Forall2_length _ _ _ Hfp),
      <- (Forall2_length _ _ _ Hfd), <- length_app.
    apply Permutation_length, NoDup_Permutation.
    + apply NoDup_app. split_and!; [by apply strongly_sorted_NoDup| |
                                    by apply strongly_sorted_NoDup].
      intros k [t1 [Hk1 Hs1]]%Hmp [t2 [Hk2 Hs2]]%Hmd. cbn [matches] in *.
      congruence.
    + by apply strongly_sorted_NoDup.
    + intros k. rewrite elem_of_app, Hmp, Hmd, Hma. cbn [matches]. split.
      * intros [(t & Hk & _)|(t & Hk & _)]; eauto.
      * intros (t & Hk & _). destruct (status t) eqn:Hs; [left|right]; eauto.
Qed.

Lemma get_all_tasks_counts_witness :
  ∃ pending finished all,
    get_all_tasks (Some PENDING) (save new_tasks (None : file))
    = (inr pending, save new_tasks (None : file))
    ∧ get_all_tasks (Some DONE) (save new_tasks (None : file))
      = (inr finished, save new_tasks (None : file))
    ∧ get_all_tasks None (save new_tasks (None : file))
      = (inr all, save new_tasks (None : file))
    ∧ length all = size new_tasks
    ∧ (length pending + length finished = length all)%nat.
Proof.
  apply (get_all_tasks_counts _ new_tasks). vm_compute. reflexivity.
Defined.

(** ** [JsonStorage.load]: what a document decodes to *)

Section load_more.

Lemma load_items_app items1 items2 tasks :
  load_items (items1 ++ items2) tasks = load_items items1 tasks ≫= load_items items2.
Proof.
  revert tasks. induction items1 as [|[s td] items1 IH]; intros tasks; [done|].
  cbn [app load_items].
  destruct (load_task td) as [|t]; [done|]. cbn [mbind result_bind].
  destruct (int_call s) as [|k]; [done|]. cbn [mbind result_bind]. apply IH.
Qed.

Lemma load_items_other_key items tasks loaded k :
  load_items items tasks = inr loaded →
  (∀ s td, (s, td) ∈ items → Py.int s ≠ Some k) →
  loaded !! k = tasks !! k.
Proof.
  revert tasks. induction items as [|[s td] items IH]; intros tasks H Hother.
  - cbn in H. by simplify_eq.
  - cbn [load_items] in H.
    destruct (load_task td) as [|t]; [done|]. cbn [mbind result_bind] in H.
    unfold int_call in H. destruct (Py.int s) as [k'|] eqn:Hs; [|done].
    cbn [mbind result_bind] in H.
    rewrite (IH _ H) by (intros s' td' Hin; apply (Hother s' td'); by right).
    apply lookup_insert_ne. intros ->. by apply (Hother s td); [left|].
Qed.

Lemma load_items_success items tasks :
  (∃ loaded, load_items items tasks = inr loaded)
  ↔ Forall (λ item, (∃ task, load_task item.2 = inr task)
                     ∧ (∃ k, Py.int item.1 = Some k)) items.
Proof.
  revert tasks. induction items as [|[s td] items IH]; intros tasks.
  - split; [by constructor|]. intros _. by exists tasks.
  - cbn [load_items]. rewrite Forall_cons. cbn [fst snd]. unfold int_call.
    destruct (load_task td) as [e|t]; cbn [mbind result_bind].
    { split; [by intros [? ?]|]. by intros [[[? ?] _] _]. }
    destruct (Py.int s) as [k|]; cbn [mbind result_bind].
    2: { split; [by intros [? ?]|]. by intros [[_ [? ?]] _]. }
    rewrite IH. split; [|by intros [_ ?]]. intros ?. split; [|done]. eauto.
Qed.

Lemma load_items_keys items tasks loaded k :
  load_items items tasks = inr loaded →
  is_Some (loaded !! k)
  ↔ is_Some (tasks !! k) ∨ ∃ s td, (s, td) ∈ items ∧ Py.int s = Some k.
Proof.
  revert tasks. induction items as [|[s td] items IH]; intros tasks H.
  - cbn in H. simplify_eq. split; [by left|].
    intros [?|(? & ? & []%elem_of_nil & _)]; done.
  - cbn [load_items] in H.
    destruct (load_task td) as [|t]; [done|]. cbn [mbind result_bind] in H.
    unfold int_call in H. destruct (Py.int s) as [k'|] eqn:Hs; [|done].
    cbn [mbind result_bind] in H. rewrite (IH _ H). split.
    + intros [Hk|(s' & td' & Hin & Hk)].
      * destruct (decide (k' = k)) as [->|Hne].
        -- right. exists s, td. split; [left|done].
        -- rewrite lookup_insert_ne in Hk by done. by left.
      * right. exists s', td'. split; [by right|done].
    + intros [Hk|(s' & td' & Hin & Hk)].
      * left. destruct (decide (k' = k)) as [->|Hne].
        -- rewrite lookup_insert_eq. eauto.
        -- by rewrite lookup_insert_ne.
      * apply elem_of_cons in Hin as [Heq|Hin].
        -- simplify_eq. left. rewrite lookup_insert_eq. eauto.
        -- right. by exists s', td'.
Qed.

End load_more.

(** X8. When two keys of the document denote the same integer (["1"] and
    ["01"], say), the later entry is the one [load] keeps: the task under
    a key of the loaded collection is the task of the last entry of the
    document whose key [int] reads as that integer. *)
Theorem load_last_entry_wins (before after : list (string * json))
    (task_id_str : string) (task_data : json) (task_id : Z) (task : Task)
    (tasks : gmap Z Task) :
  load (Some (Json (JObject (before ++ (task_id_str, task_data) :: after))) : file)
  = inr tasks →
  Py.int task_id_str = Some task_id → load_task task_data = inr task →
  (∀ s td, (s, td) ∈ after → Py.int s ≠ Some task_id) →
  tasks !! task_id = Some task.
Proof.
  cbn [load JsonStorage JsonStorage_load load_data].
  intros H Hkey Htask Hlast. rewrite load_items_app in H.
  destruct (load_items before ∅) as [|tasks1]; [done|]. cbn [mbind result_bind] in H.
  cbn [load_items] in H. rewrite Htask in H. unfold int_call in H.
  rewrite Hkey in H. cbn [mbind result_bind] in H.
  rewrite (load_items_other_key _ _ _ _ H Hlast). apply lookup_insert_eq.
Qed.

Lemma load_last_entry_wins_witness :
  ∃ tasks,
    load (Some (Json (JObject
            ([("1", serializable_task (sample_task 1 "first"))]
             ++ [("01", serializable_task (sample_task 1 "second"))]))) : file)
    = inr tasks
    ∧ tasks !! 1 = Some (sample_task 1 "second").
Proof.
  exists {[ 1 := sample_task 1 "second" ]}.
  assert (load (Some (Json (JObject
            ([("1", serializable_task (sample_task 1 "first"))]
             ++ [("01", serializable_task (sample_task 1 "second"))]))) : file)
          = inr {[ 1 := sample_task 1 "second" ]}) as H
    by (vm_compute; reflexivity).
  split; [exact H|].
  apply (load_last_entry_wins _ _ _ _ 1 (sample_task 1 "second") _ H).
  - reflexivity.
  - vm_compute. reflexivity.
  - intros s td Hin. apply elem_of_nil in Hin. destruct Hin.
Defined.

(** X9. [load] is all or nothing: a document that is an object loads if
    and only if every one of its entries has a value that decodes to a
    task and a key that [int] accepts; and then the keys of the collection
    are exactly the integers that the keys of the document denote. *)
Theorem load_all_or_nothing (items : list (string * json)) :
  ((∃ tasks, load (Some (Json (JObject items)) : file) = inr tasks)
   ↔ Forall (λ item, (∃ task, load_task item.2 = inr task)
                      ∧ (∃ k, Py.int item.1 = Some k)) items)
  ∧ ∀ tasks k,
      load (Some (Json (JObject items)) : file) = inr tasks →
      (is_Some (tasks !! k) ↔ ∃ s td, (s, td) ∈ items ∧ Py.int s = Some k).
Proof.
  cbn [load JsonStorage JsonStorage_load load_data]. split.
  - apply load_items_success.
  - intros tasks k H. rewrite (load_items_keys _ _ _ k H), lookup_empty.
    split; [|by right]. intros [[? ?]|?]; done.
Qed.

Lemma load_all_or_nothing_witness :
  is_Some (({[ 7 := sample_task 7 "A" ]} : gmap Z Task) !! 7)
  ↔ ∃ s td, (s, td) ∈ [("7", serializable_task (sample_task 7 "A"))]
            ∧ Py.int s = Some 7.
Proof.
  destruct (load_all_or_nothing [("7", serializable_task (sample_task 7 "A"))])
    as [_ H].
  apply (H {[ 7 := sample_task 7 "A" ]} 7).
  vm_compute. reflexivity.
Defined.

(** ** [JsonStorage.load]: one stored task object *)

Section task_objects.

Lemma dict_get_cons key v fields k :
  dict_get ((key, v) :: fields) k
  = if String.eqb key k then Some v else dict_get fields k.
Proof. reflexivity. Qed.

Lemma dict_get_None fields k : k ∉ fields.*1 → dict_get fields k = None.
Proof.
  induction fields as [|[key v] fields IH]; intros Hk; [done|].
  rewrite dict_get_cons. cbn [fmap list_fmap fst] in Hk.
  apply not_elem_of_cons in Hk as [Hne Hk].
  destruct (String.eqb_spec key k) as [->|_]; [done|]. by apply IH.
Qed.

Lemma dict_get_Permutation fields fields' k :
  NoDup fields.*1 → fields ≡ₚ fields' → dict_get fields k = dict_get fields' k.
Proof.
  intros Hnd Hperm. induction Hperm as [|[key v] l l' Hperm IH
                                        |[key1 v1] [key2 v2] l
                                        |l l' l'' Hperm1 IH1 Hperm2 IH2].
  - done.
  - rewrite !dict_get_cons. cbn [fmap list_fmap fst] in Hnd.
    apply NoDup_cons in Hnd as [_ Hnd]. by rewrite IH.
  - rewrite !dict_get_cons. cbn [fmap list_fmap fst] in Hnd.
    apply NoDup_cons in Hnd as [Hne _]. apply not_elem_of_cons in Hne as [Hne _].
    destruct (String.eqb_spec key1 k) as [->|_];
      destruct (String.eqb_spec key2 k) as [->|_]; done.
  - rewrite IH1 by done. apply IH2. by rewrite <- Hperm1.
Qed.

Lemma load_task_ext fields fields' :
  (∀ key, key ∈ required_fields → dict_get fields key = dict_get fields' key) →
  load_task (JObject fields) = load_task (JObject fields').
Proof.
  intros Hsame. unfold load_task, getitem, required_fields in *.
  rewrite (Hsame "id"), (Hsame "title"), (Hsame "status"), (Hsame "priority"),
    (Hsame "created_at"); [done|..].
  - do 4 right. left.
  - do 3 right. left.
  - do 2 right. left.
  - right. left.
  - left.
Qed.

End task_objects.

(** X10. The order of the fields in a stored task object does not matter:
    two objects with the same fields (each name once), in any order,
    decode alike. *)
Theorem load_task_field_order (fields fields' : list (string * json)) :
  NoDup fields.*1 → fields ≡ₚ fields' →
  load_task (JObject fields) = load_task (JObject fields').
Proof.
  intros Hnd Hperm. apply load_task_ext. intros key _.
  by apply dict_get_Permutation.
Qed.

Lemma load_task_field_order_witness :
  load_task (JObject [("title", JString "A"); ("id", JInt 1)])
  = load_task (JObject [("id", JInt 1); ("title", JString "A")]).
Proof.
  apply load_task_field_order.
  - cbn [fmap list_fmap fst]. apply NoDup_cons. split.
    + intros Hin. apply list_elem_of_singleton in Hin. discriminate Hin.
    + apply NoDup_singleton.
  - apply Permutation_swap.
Defined.

(** X11. [load] reads the five fields only: a field of any other name in
    a stored task object is ignored, whatever its value. *)
Theorem load_task_ignores_other_fields (fields : list (string * json))
    (name : string) (value : json) :
  name ∉ required_fields →
  load_task (JObject ((name, value) :: fields)) = load_task (JObject fields).
Proof.
  intros Hname. apply load_task_ext. intros key Hkey. rewrite dict_get_cons.
  destruct (String.eqb_spec name key) as [->|_]; done.
Qed.

Lemma load_task_ignores_other_fields_witness :
  load_task (JObject (("notes", JArray [JInt 1]) ::
                      [("id", JInt 1); ("title", JString "A")]))
  = load_task (JObject [("id", JInt 1); ("title", JString "A")]).
Proof.
  apply load_task_ignores_other_fields.
  unfold required_fields. intros Hin.
  repeat (apply elem_of_cons in Hin as [Heq|Hin]; [discriminate Heq|]).
  apply elem_of_nil in Hin. destruct Hin.
Defined.

(** ** [JsonStorage.load]: documents of the wrong shape *)

Section wrong_shape.

Lemma load_task_not_object task_data :
  (∀ fields, task_data ≠ JObject fields) → load_task task_data = inl TypeError.
Proof.
  intros Hshape. unfold load_task, getitem.
  destruct task_data; try done. by destruct (Hshape items).
Qed.

Lemma load_task_bad_value fields v :
  (dict_get fields "status" = Some v
   ∧ v ≠ JString "pending" ∧ v ≠ JString "done")
  ∨ (dict_get fields "priority" = Some v
     ∧ v ≠ JString "low" ∧ v ≠ JString "medium" ∧ v ≠ JString "high")
  ∨ (dict_get fields "created_at" = Some v ∧ ∀ s, v ≠ JString s) →
  ∃ e, load_task (JObject fields) = inl e.
Proof.
  intros Hbad. unfold load_task, getitem.
  destruct (dict_get fields "id") as [raw_id|];
    cbn [mbind result_bind]; [|eauto].
  destruct (dict_get fields "title") as [raw_title|];
    cbn [mbind result_bind]; [|eauto].
  destruct (dict_get fields "status") as [v1|] eqn:Hstatus;
    cbn [mbind result_bind]; [|eauto].
  destruct (Status_call v1) as [|st] eqn:Hst; cbn [mbind result_bind]; [eauto|].
  destruct (dict_get fields "priority") as [v2|] eqn:Hpriority;
    cbn [mbind result_bind]; [|eauto].
  destruct (Priority_call v2) as [|pr] eqn:Hpr; cbn [mbind result_bind]; [eauto|].
  destruct (dict_get fields "created_at") as [v3|] eqn:Hcreated;
    cbn [mbind result_bind]; [|eauto].
  destruct (fromisoformat_call v3) as [|d] eqn:Hd; cbn [mbind result_bind]; [eauto|].
  exfalso. destruct Hbad as [(Hv & Hne1 & Hne2)|[(Hv & Hne1 & Hne2 & Hne3)|(Hv & Hne)]];
    simplify_eq.
  - unfold Status_call in Hst. destruct v; try done.
    unfold Status_of_value in Hst.
    destruct (String.eqb_spec s "pending") as [->|_]; [done|].
    destruct (String.eqb_spec s "done") as [->|_]; done.
  - unfold Priority_call in Hpr. destruct v; try done.
    unfold Priority_of_value in Hpr.
    destruct (String.eqb_spec s "low") as [->|_]; [done|].
    destruct (String.eqb_spec s "medium") as [->|_]; [done|].
    destruct (String.eqb_spec s "high") as [->|_]; done.
  - unfold fromisoformat_call in Hd. destruct v; try done. by destruct (Hne s).
Qed.

End wrong_shape.

(** X12. [load] raises [AttributeError] on a document whose top-level value
    is not an object, and raises on a document with an entry whose value
    is not an object. *)
Theorem load_rejects_wrong_shape :
  (∀ data, (∀ items, data ≠ JObject items) →
     load (Some (Json data) : file) = inl AttributeError)
  ∧ (∀ items task_id_str task_data,
       (task_id_str, task_data) ∈ items →
       (∀ fields, task_data ≠ JObject fields) →
       ∃ e, load (Some (Json (JObject items)) : file) = inl e).
Proof.
  split.
  - intros data Hshape. cbn [load JsonStorage JsonStorage_load].
    destruct data; try done. by destruct (Hshape items).
  - intros items s td Hin Hshape.
    cbn [load JsonStorage JsonStorage_load load_data].
    eapply load_items_failure; [done|]. by apply load_task_not_object.
Qed.

Lemma load_rejects_wrong_shape_witness :
  load (Some (Json (JArray [JInt 1; JInt 2])) : file) = inl AttributeError
  ∧ ∃ e, load (Some (Json (JObject [("1", JString "A")])) : file) = inl e.
Proof.
  destruct load_rejects_wrong_shape as [Htop Hentry]. split.
  - apply Htop. intros items. discriminate.
  - apply (Hentry _ "1" (JString "A")).
    + apply list_elem_of_singleton. reflexivity.
    + intros fields. discriminate.
Defined.

(** X13. [load] raises when a stored task object has a [status] other than
    ["pending"] and ["done"], a [priority] other than ["low"], ["medium"]
    and ["high"], or a [created_at] that is not a string. *)
Theorem load_rejects_bad_values (items : list (string * json))
    (task_id_str : string) (fields : list (string * json)) (v : json) :
  (task_id_str, JObject fields) ∈ items →
  (dict_get fields "status" = Some v
   ∧ v ≠ JString "pending" ∧ v ≠ JString "done")
  ∨ (dict_get fields "priority" = Some v
     ∧ v ≠ JString "low" ∧ v ≠ JString "medium" ∧ v ≠ JString "high")
  ∨ (dict_get fields "created_at" = Some v ∧ ∀ s, v ≠ JString s) →
  ∃ e, load (Some (Json (JObject items)) : file) = inl e.
Proof.
  intros Hin Hbad. destruct (load_task_bad_value fields v Hbad) as [e He].
  cbn [load JsonStorage JsonStorage_load load_data].
  by eapply load_items_failure.
Qed.

Lemma load_rejects_bad_values_witness :
  ∃ e, load (Some (Json (JObject
         [("1", JObject [("id", JInt 1); ("title", JString "A");
                         ("status", JString "open");
                         ("priority", JString "low");
                         ("created_at", JString "2024-01-01T12:00:00")])])) : file)
       = inl e.
Proof.
  eapply (load_rejects_bad_values _ "1" _ (JString "open")).
  - apply list_elem_of_singleton. reflexivity.
  - left. split_and!; [reflexivity|discriminate|discriminate].
Defined.

(** ** [JsonStorage.delete] *)



(** ** [Priority] and [Status] *)

(** X15. Looking a member up by value inverts [.value]: [Status(v)] is the
    member [s] exactly when [v] is [s.value], and likewise for [Priority];
    so the lookups succeed on exactly the strings that the parser admits
    for [--status] and [--priority]. *)
Theorem enum_lookup_by_value :
  (∀ v s, Status_of_value v = Some s ↔ v = Status_value s)
  ∧ (∀ v p, Priority_of_value v = Some p ↔ v = Priority_value p)
  ∧ (∀ v, v ∈ status_choices ↔ is_Some (Status_of_value v))
  ∧ (∀ v, v ∈ priority_choices ↔ is_Some (Priority_of_value v)).
Proof.
  assert (∀ v s, Status_of_value v = Some s ↔ v = Status_value s) as Hs.
  { intros v s. split; [|intros ->; by destruct s].
    unfold Status_of_value.
    destruct (String.eqb_spec v "pending") as [->|_]; [by intros [= <-]|].
    destruct (String.eqb_spec v "done") as [->|_]; [by intros [= <-]|done]. }
  assert (∀ v p, Priority_of_value v = Some p ↔ v = Priority_value p) as Hp.
  { intros v p. split; [|intros ->; by destruct p].
    unfold Priority_of_value.
    destruct (String.eqb_spec v "low") as [->|_]; [by intros [= <-]|].
    destruct (String.eqb_spec v "medium") as [->|_]; [by intros [= <-]|].
    destruct (String.eqb_spec v "high") as [->|_]; [by intros [= <-]|done]. }
  split_and!; [done|done| |].
  - intros v. unfold status_choices. split.
    + intros Hin. repeat (apply elem_of_cons in Hin as [->|Hin]; [by eexists|]).
      by apply elem_of_nil in Hin.
    + intros [s Hv]. apply Hs in Hv as ->. destruct s; [left|right; left].
  - intros v. unfold priority_choices. split.
    + intros Hin. repeat (apply elem_of_cons in Hin as [->|Hin]; [by eexists|]).
      by apply elem_of_nil in Hin.
    + intros [p Hv]. apply Hp in Hv as ->.
      destruct p; [left|right; left|right; right; left].
Qed.

(** ** [src/cli.py]: the handlers *)

Section cli_handlers.

Lemma priority_choice v :
  v ∈ priority_choices → ∃ p, Priority_of_value v = Some p ∧ Priority_value p = v.
Proof.
  unfold priority_choices. intros Hin.
  repeat (apply elem_of_cons in Hin as [->|Hin]; [by eexists|]).
  by apply elem_of_nil in Hin.
Qed.


Lemma main_dispatch {S : Type} `{!Storage S} now (args : Namespace) (st : S) :
  main now args st
  = match args with
    | NoCommand => (inr ([Help], 1), st)
    | AddArgs _ _ => cmd_add now args st
    | ListArgs _ => cmd_list args st
    | DoneArgs _ => cmd_done args st
    | DeleteArgs _ => cmd_delete args st
    end.
Proof. by destruct args. Qed.

End cli_handlers.

(** X16. [cmd_add] with a priority that the parser admits, on a readable
    file: it returns exit code 0 after printing one line on standard
    output, ["Task added: #<id> <title> [<priority>]"], where the id is
    new to the collection and the priority is printed as it was typed; the
    task is saved under that id with status [PENDING]. *)
Theorem cmd_add_spec (title priority : string) (now : datetime) (st : file)
    (tasks : gmap Z Task) :
  priority ∈ priority_choices → datetime_ok now = true → load st = inr tasks →
  ∃ n p st',
    Priority_of_value priority = Some p
    ∧ cmd_add now (AddArgs title priority) st
      = (inr ([Stdout ("Task added: #" +:+ Py.str n +:+ " " +:+ title
                       +:+ " [" +:+ priority +:+ "]")], 0), st')
    ∧ tasks !! n = None
    ∧ load st'
      = inr (<[n := {| id := Some n; title := title; status := PENDING;
                       priority := p; created_at := now |}]> tasks).
Proof.
  intros Hchoice Hnow H. destruct (priority_choice _ Hchoice) as (p & Hp & Hv).
  destruct (next_id_spec tasks) as (_ & Habove & _).
  set (n := Py.max_default (keys tasks) 0 + 1) in *.
  exists n, p, (save (<[n := {| id := Some n; title := title; status := PENDING;
                               priority := p; created_at := now |}]> tasks) st).
  split_and!; [done| | |].
  - unfold cmd_add, pure, mbind at 1 2 3, M_bind at 1 2 3.
    cbn [attr_priority attr_title mbind result_bind]. unfold Priority_of.
    rewrite Hp. rewrite (create_task_run title p now st tasks H).
    fold n. cbn [id models.title models.priority format_id]. by rewrite Hv.
  - destruct (tasks !! n) eqn:Hn; [|done].
    assert (n < n) by (apply Habove; eauto). lia.
  - apply load_save. apply map_Forall_insert_2; [done|]. by eapply load_ok.
Qed.

Lemma cmd_add_spec_witness :
  ∃ n p st',
    Priority_of_value "high" = Some p
    ∧ cmd_add sample_time (AddArgs "Buy milk" "high") (None : file)
      = (inr ([Stdout ("Task added: #" +:+ Py.str n +:+ " " +:+ "Buy milk"
                       +:+ " [" +:+ "high" +:+ "]")], 0), st')
    ∧ (∅ : gmap Z Task) !! n = None
    ∧ load st'
      = inr (<[n := {| id := Some n; title := "Buy milk"; status := PENDING;
                       priority := p; created_at := sample_time |}]> ∅).
Proof.
  apply (cmd_add_spec "Buy milk" "high" sample_time None ∅).
  - unfold priority_choices. do 2 right. left.
  - reflexivity.
  - reflexivity.
Defined.



(** X18. [cmd_done] on a readable collection keyed by id: for a present id
    it marks the task done, prints ["Task #<id> marked as done: <title>"]
    on standard output and returns 0; for an absent id it prints
    ["Error: Task #<id> not found."] on standard error, returns 1 and
    writes nothing. *)
Theorem cmd_done_spec (task_id : Z) (st : file) (tasks : gmap Z Task) :
  load st = inr tasks → keyed_by_id tasks →
  (∀ task, tasks !! task_id = Some task →
     ∃ st',
       cmd_done (DoneArgs task_id) st
       = (inr ([Stdout ("Task #" +:+ Py.str task_id +:+ " marked as done: "
                        +:+ title task)], 0), st')
       ∧ load st' = inr (<[task_id := set_status DONE task]> tasks))
  ∧ (tasks !! task_id = None →
       cmd_done (DoneArgs task_id) st
       = (inr ([Stderr ("Error: Task #" +:+ Py.str task_id +:+ " not found.")], 1), st)).
Proof.
  intros H Hkeyed. split.
  - intros task Hk. pose proof (Hkeyed _ _ Hk) as Hid.
    exists (save (<[task_id := set_status DONE task]> tasks) st). split.
    + unfold cmd_done, pure, mbind at 1 2, M_bind at 1 2. cbn [attr_id].
      rewrite (mark_done_known _ _ _ _ H Hk).
      rewrite (update_task_known (set_status DONE task) task_id st tasks Hid H)
        by eauto.
      cbn [id title set_status format_id]. by rewrite Hid.
    + apply load_save. apply map_Forall_insert_2; [|by eapply load_ok].
      by apply (load_ok _ _ H task_id task).
  - intros Hk. unfold cmd_done, pure, mbind at 1 2, M_bind at 1 2. cbn [attr_id].
    by rewrite (mark_done_unknown _ _ _ H Hk).
Qed.

Lemma cmd_done_spec_witness :
  cmd_done (DoneArgs 9) (save old_tasks (None : file))
  = (inr ([Stderr ("Error: Task #" +:+ Py.str 9 +:+ " not found.")], 1),
     save old_tasks (None : file)).
Proof.
  apply (cmd_done_spec 9 _ old_tasks).
  - vm_compute. reflexivity.
  - intros k task Hk. unfold old_tasks in Hk. apply lookup_singleton_Some in Hk as [<- <-]. reflexivity.
  - reflexivity.
Defined.

(** X19. [cmd_delete] on a readable file: for a present id it removes that
    entry, prints ["Task #<id> deleted."] on standard output and returns
    0, and [get_task] of the id finds nothing afterwards; for an absent id
    it prints ["Error: Task #<id> not found."] on standard error, returns
    1 and writes nothing. *)
Theorem cmd_delete_spec (task_id : Z) (st : file) (tasks : gmap Z Task) :
  load st = inr tasks →
  (is_Some (tasks !! task_id) →
     ∃ st',
       cmd_delete (DeleteArgs task_id) st
       = (inr ([Stdout ("Task #" +:+ Py.str task_id +:+ " deleted.")], 0), st')
       ∧ load st' = inr (base.delete task_id tasks)
       ∧ get_task task_id st' = (inr None, st'))
  ∧ (tasks !! task_id = None →
       cmd_delete (DeleteArgs task_id) st
       = (inr ([Stderr ("Error: Task #" +:+ Py.str task_id +:+ " not found.")], 1), st)).
Proof.
  intros H. split.
  - intros Hk.
    assert (load (save (base.delete task_id tasks) st)
            = inr (base.delete task_id tasks)) as H'.
    { apply load_save. apply map_Forall_delete. by eapply load_ok. }
    exists (save (base.delete task_id tasks) st). split_and!; [|done|].
    + unfold cmd_delete, pure, mbind at 1 2, M_bind at 1 2. cbn [attr_id].
      by rewrite (delete_task_known _ _ _ H Hk).
    + rewrite (get_task_run _ _ _ H'). by rewrite lookup_delete_eq.
  - intros Hk. unfold cmd_delete, pure, mbind at 1 2, M_bind at 1 2. cbn [attr_id].
    by rewrite (delete_task_unknown _ _ _ H Hk).
Qed.

Lemma cmd_delete_spec_witness :
  ∃ st',
    cmd_delete (DeleteArgs 1) (save old_tasks (None : file))
    = (inr ([Stdout ("Task #" +:+ Py.str 1 +:+ " deleted.")], 0), st')
    ∧ load st' = inr (base.delete 1 old_tasks)
    ∧ get_task 1 st' = (inr None, st').
Proof.
  destruct (cmd_delete_spec 1 (save old_tasks (None : file)) old_tasks) as [H _].
  - vm_compute. reflexivity.
  - apply H. exists (sample_task 1 "A"). reflexivity.
Defined.

(** ** [src/cli.py]: [main] *)

Section main_more.
Context {S : Type} `{!Storage S}.

Lemma mark_done_None task_id (st st' : S) :
  mark_done task_id st = (inr None, st') → st' = st.
Proof.
  unfold mark_done, get_task, storage_load, mbind, M_bind.
  destruct (load st) as [e|tasks]; [done|]. cbn [mret M_ret].
  destruct (tasks !! task_id) as [task|]; [|by intros [= <-]].
  destruct (update_task (set_status DONE task) st) as [[e|t] st1]; done.
Qed.

Lemma delete_task_false task_id (st st' : S) :
  delete_task task_id st = (inr false, st') → st' = st.
Proof.
  unfold delete_task, storage_load, storage_save, mbind, M_bind.
  destruct (load st) as [e|tasks]; [done|].
  destruct (tasks !! task_id) as [task|]; [done|]. by intros [= <-].
Qed.

Lemma list_lines_stdout (tasks : list Task) :
  Forall (λ l, ∃ text, l = Stdout text) (list_line <$> tasks).
Proof. apply Forall_fmap, Forall_forall. intros task _. by eexists. Qed.

End main_more.

(** X20. Whenever [main] returns, from whatever storage: either the exit
    code is 0 and everything it printed, at least one line, went to
    standard output; or the exit code is 1, the storage is as it was, and
    it printed either the help text (when no sub-command was given) or the
    single line ["Error: Task #<id> not found."] on standard error.  The
    branch for an unknown command is never taken. *)
Theorem main_exit_codes {S : Type} `{!Storage S} (now : datetime) (args : Namespace)
    (st st' : S) (out : list line) (code : Z) :
  main now args st = (inr (out, code), st') →
  (code = 0 ∧ out ≠ [] ∧ Forall (λ l, ∃ text, l = Stdout text) out)
  ∨ (code = 1 ∧ st' = st
     ∧ ((out = [Help] ∧ args = NoCommand)
        ∨ ∃ task_id,
            out = [Stderr ("Error: Task #" +:+ Py.str task_id +:+ " not found.")])).
Proof.
  rewrite main_dispatch. destruct args as [|title priority|status|i|i].
  - intros [= <- <- <-]. right. split_and!; [done..|]. by left.
  - unfold cmd_add, pure, mbind at 1 2 3, M_bind at 1 2 3.
    cbn [attr_priority attr_title mbind result_bind].
    destruct (Priority_of priority) as [e|p]; [done|].
    destruct (create_task title p now st) as [[e|task] st1]; [done|].
    intros [= <- <- <-]. left. split_and!; [done..|].
    apply Forall_singleton. by eexists.
  - unfold cmd_list, pure, mbind at 1 2, M_bind at 1 2.
    cbn [attr_status mbind result_bind].
    destruct (match status with
              | None => inr None
              | Some s => if decide (s = "") then inr None else Some <$> Status_of s
              end) as [e|flt]; [done|].
    destruct (get_all_tasks flt st) as [[e|l] st1]; [done|].
    destruct l as [|task l]; intros [= <- <- <-]; left.
    + split_and!; [done..|]. apply Forall_singleton. by eexists.
    + split_and!; [done..|]. apply (list_lines_stdout (task :: l)).
  - unfold cmd_done, pure, mbind at 1 2, M_bind at 1 2. cbn [attr_id].
    destruct (mark_done i st) as [[e|[task|]] st1] eqn:Hdone; [done| |];
      intros [= <- <- <-].
    + left. split_and!; [done..|]. apply Forall_singleton. by eexists.
    + right. apply mark_done_None in Hdone. split_and!; [done..|]. right. by exists i.
  - unfold cmd_delete, pure, mbind at 1 2, M_bind at 1 2. cbn [attr_id].
    destruct (delete_task i st) as [[e|[|]] st1] eqn:Hdel; [done| |];
      intros [= <- <- <-].
    + left. split_and!; [done..|]. apply Forall_singleton. by eexists.
    + right. apply delete_task_false in Hdel. split_and!; [done..|]. right. by exists i.
Qed.

Lemma main_exit_codes_witness :
  (1 = 0 ∧ [Stderr ("Error: Task #" +:+ Py.str 4 +:+ " not found.")] ≠ []
   ∧ Forall (λ l, ∃ text, l = Stdout text)
            [Stderr ("Error: Task #" +:+ Py.str 4 +:+ " not found.")])
  ∨ (1 = 1 ∧ (None : file) = None
     ∧ (([Stderr ("Error: Task #" +:+ Py.str 4 +:+ " not found.")] = [Help]
         ∧ DeleteArgs 4 = NoCommand)
        ∨ ∃ task_id,
            [Stderr ("Error: Task #" +:+ Py.str 4 +:+ " not found.")]
            = [Stderr ("Error: Task #" +:+ Py.str task_id +:+ " not found.")])).
Proof.
  apply (main_exit_codes sample_time (DeleteArgs 4) (None : file) None).
  reflexivity.
Defined.

(** Add "Buy milk", list, mark it done, list, delete it, list. *)
Example end_to_end :
  let '(r1, st1) := main sample_time (AddArgs "Buy milk" "medium") (None : file) in
  let '(r2, st2) := main sample_time (ListArgs None) st1 in
  let '(r3, st3) := main sample_time (DoneArgs 1) st2 in
  let '(r4, st4) := main sample_time (ListArgs None) st3 in
  let '(r5, st5) := main sample_time (DeleteArgs 1) st4 in
  let '(r6, st6) := main sample_time (ListArgs None) st5 in
  [r1; r2; r3; r4; r5; r6]
  = [inr ([Stdout "Task added: #1 Buy milk [medium]"], 0);
     inr ([Stdout "[ ] #1 Buy milk [medium] (pending)"], 0);
     inr ([Stdout "Task #1 marked as done: Buy milk"], 0);
     inr ([Stdout "[✓] #1 Buy milk [medium] (done)"], 0);
     inr ([Stdout "Task #1 deleted."], 0);
     inr ([Stdout "No tasks found."], 0)].
Proof. vm_compute. reflexivity. Qed.
